(** * A two-paddle ball game: the per-frame simulation of [main.cpp]

    The program keeps its whole state in global variables and runs
    [process_input(); update(); render();] while [g_app_status == RUNNING].
    This development embeds [process_input], [update] and the loop of
    [main] as functions on a record of those globals and proves the
    properties of the simulation step.

    Numbers.  The source computes with [float] and [double].  Here every
    such quantity is an exact rational ([Q]): rounding, overflow and NaN
    are outside the model, and a literal stands for its decimal value
    ([3.0f] is [3], [1.015] is [1015 # 1000]).  Numeric equalities are
    stated with [==] ([Qeq]); Leibniz equality is used where the code
    stores a literal or the very same expression.  The one quantity whose
    rounding is followed is the ball's speed: its values in the code's
    [float] format are computed with the library's IEEE 754 operations
    ([SpecFloat]).

    Rendering.  The model matrices recomputed at the end of [update] and
    everything in [render] only read the simulation state; they are left
    out. *)

From Stdlib Require Import ZArith QArith Qabs Qpower Lqa Lia List Bool SpecFloat.
Import ListNotations.

Local Open Scope Q_scope.

(** ** Numeric helpers *)

(** [a < b] on rationals as a boolean, next to the library's [Qle_bool]. *)
Definition Qlt_bool (a b : Q) : bool :=
  (Qnum a * QDen b <? Qnum b * QDen a)%Z.

(** ** Data model *)

(** [enum AppStatus { RUNNING, TERMINATED }] *)
Inductive AppStatus : Type := RUNNING | TERMINATED.

(** [glm::vec3] with the three operations the simulation uses. *)
Record vec3 : Type := mkvec3 { vx : Q; vy : Q; vz : Q }.

(** [glm::vec3(s)] *)
Definition vec3_splat (s : Q) : vec3 := mkvec3 s s s.

(** [v * s] *)
Definition vscale (v : vec3) (s : Q) : vec3 :=
  mkvec3 (vx v * s) (vy v * s) (vz v * s).

(** [a + b], the right-hand side of [a += b] *)
Definition vadd (a b : vec3) : vec3 :=
  mkvec3 (vx a + vx b) (vy a + vy b) (vz a + vz b).

Definition set_vx (v : vec3) (q : Q) : vec3 := mkvec3 q (vy v) (vz v).
Definition set_vy (v : vec3) (q : Q) : vec3 := mkvec3 (vx v) q (vz v).

(** Constants of the source. *)
Definition MILLISECONDS_IN_SECOND : Q := 1000.
Definition INIT_PLAYER_1_SCALE : vec3 := mkvec3 0.8 1.2 0.
Definition INIT_PLAYER_2_SCALE : vec3 := mkvec3 1 1 0.
Definition INIT_BALL_SCALE : vec3 := mkvec3 0.25 0.25 0.

(** The global variables of the simulation. *)
Record Globals : Type := mkGlobals {
  g_app_status : AppStatus;
  right_paddle_swtich : Z;
  g_previous_ticks : Q;
  g_paddle_position : vec3;
  g_paddle_movement : vec3;
  g_right_paddle_position : vec3;
  g_right_paddle_movement : vec3;
  g_ball_position : vec3;
  g_ball_movement : vec3;
  g_paddle_speed : Q;
  g_ball_speed : Q;
  paddle_y_distance : Q;
  paddle_right_y_distance : Q;
  paddle_ball_x_distance : Q;
  paddle_ball_y_distance : Q;
  right_paddle_ball_x_distance : Q;
  right_paddle_ball_y_distance : Q
}.

(** The initialisers of the globals (lines 59 and 75-96). *)
Definition initial_globals : Globals := {|
  g_app_status := RUNNING;
  right_paddle_swtich := (-1)%Z;
  g_previous_ticks := 0;
  g_paddle_position := mkvec3 (-4) 0 0;
  g_paddle_movement := mkvec3 0 0 0;
  g_right_paddle_position := mkvec3 4 0 0;
  g_right_paddle_movement := mkvec3 0 0 0;
  g_ball_position := mkvec3 0 0 0;
  g_ball_movement := mkvec3 0 0 0;
  g_paddle_speed := 3;
  g_ball_speed := 3;
  paddle_y_distance := 0;
  paddle_right_y_distance := 0;
  paddle_ball_x_distance := 0;
  paddle_ball_y_distance := 0;
  right_paddle_ball_x_distance := 0;
  right_paddle_ball_y_distance := 0
|}.

(** Assignments to single globals. *)
Definition set_g_app_status (v : AppStatus) (g : Globals) : Globals :=
  mkGlobals v (right_paddle_swtich g) (g_previous_ticks g)
    (g_paddle_position g) (g_paddle_movement g) (g_right_paddle_position g)
    (g_right_paddle_movement g) (g_ball_position g) (g_ball_movement g)
    (g_paddle_speed g) (g_ball_speed g) (paddle_y_distance g)
    (paddle_right_y_distance g) (paddle_ball_x_distance g)
    (paddle_ball_y_distance g) (right_paddle_ball_x_distance g)
    (right_paddle_ball_y_distance g).

Definition set_right_paddle_swtich (v : Z) (g : Globals) : Globals :=
  mkGlobals (g_app_status g) v (g_previous_ticks g) (g_paddle_position g)
    (g_paddle_movement g) (g_right_paddle_position g)
    (g_right_paddle_movement g) (g_ball_position g) (g_ball_movement g)
    (g_paddle_speed g) (g_ball_speed g) (paddle_y_distance g)
    (paddle_right_y_distance g) (paddle_ball_x_distance g)
    (paddle_ball_y_distance g) (right_paddle_ball_x_distance g)
    (right_paddle_ball_y_distance g).

Definition set_g_previous_ticks (v : Q) (g : Globals) : Globals :=
  mkGlobals (g_app_status g) (right_paddle_swtich g) v (g_paddle_position g)
    (g_paddle_movement g) (g_right_paddle_position g)
    (g_right_paddle_movement g) (g_ball_position g) (g_ball_movement g)
    (g_paddle_speed g) (g_ball_speed g) (paddle_y_distance g)
    (paddle_right_y_distance g) (paddle_ball_x_distance g)
    (paddle_ball_y_distance g) (right_paddle_ball_x_distance g)
    (right_paddle_ball_y_distance g).

Definition set_g_paddle_position (v : vec3) (g : Globals) : Globals :=
  mkGlobals (g_app_status g) (right_paddle_swtich g) (g_previous_ticks g) v
    (g_paddle_movement g) (g_right_paddle_position g)
    (g_right_paddle_movement g) (g_ball_position g) (g_ball_movement g)
    (g_paddle_speed g) (g_ball_speed g) (paddle_y_distance g)
    (paddle_right_y_distance g) (paddle_ball_x_distance g)
    (paddle_ball_y_distance g) (right_paddle_ball_x_distance g)
    (right_paddle_ball_y_distance g).

Definition set_g_paddle_movement (v : vec3) (g : Globals) : Globals :=
  mkGlobals (g_app_status g) (right_paddle_swtich g) (g_previous_ticks g)
    (g_paddle_position g) v (g_right_paddle_position g)
    (g_right_paddle_movement g) (g_ball_position g) (g_ball_movement g)
    (g_paddle_speed g) (g_ball_speed g) (paddle_y_distance g)
    (paddle_right_y_distance g) (paddle_ball_x_distance g)
    (paddle_ball_y_distance g) (right_paddle_ball_x_distance g)
    (right_paddle_ball_y_distance g).

Definition set_g_right_paddle_position (v : vec3) (g : Globals) : Globals :=
  mkGlobals (g_app_status g) (right_paddle_swtich g) (g_previous_ticks g)
    (g_paddle_position g) (g_paddle_movement g) v (g_right_paddle_movement g)
    (g_ball_position g) (g_ball_movement g) (g_paddle_speed g)
    (g_ball_speed g) (paddle_y_distance g) (paddle_right_y_distance g)
    (paddle_ball_x_distance g) (paddle_ball_y_distance g)
    (right_paddle_ball_x_distance g) (right_paddle_ball_y_distance g).

Definition set_g_right_paddle_movement (v : vec3) (g : Globals) : Globals :=
  mkGlobals (g_app_status g) (right_paddle_swtich g) (g_previous_ticks g)
    (g_paddle_position g) (g_paddle_movement g) (g_right_paddle_position g) v
    (g_ball_position g) (g_ball_movement g) (g_paddle_speed g)
    (g_ball_speed g) (paddle_y_distance g) (paddle_right_y_distance g)
    (paddle_ball_x_distance g) (paddle_ball_y_distance g)
    (right_paddle_ball_x_distance g) (right_paddle_ball_y_distance g).

Definition set_g_ball_position (v : vec3) (g : Globals) : Globals :=
  mkGlobals (g_app_status g) (right_paddle_swtich g) (g_previous_ticks g)
    (g_paddle_position g) (g_paddle_movement g) (g_right_paddle_position g)
    (g_right_paddle_movement g) v (g_ball_movement g) (g_paddle_speed g)
    (g_ball_speed g) (paddle_y_distance g) (paddle_right_y_distance g)
    (paddle_ball_x_distance g) (paddle_ball_y_distance g)
    (right_paddle_ball_x_distance g) (right_paddle_ball_y_distance g).

Definition set_g_ball_movement (v : vec3) (g : Globals) : Globals :=
  mkGlobals (g_app_status g) (right_paddle_swtich g) (g_previous_ticks g)
    (g_paddle_position g) (g_paddle_movement g) (g_right_paddle_position g)
    (g_right_paddle_movement g) (g_ball_position g) v (g_paddle_speed g)
    (g_ball_speed g) (paddle_y_distance g) (paddle_right_y_distance g)
    (paddle_ball_x_distance g) (paddle_ball_y_distance g)
    (right_paddle_ball_x_distance g) (right_paddle_ball_y_distance g).

Definition set_g_ball_speed (v : Q) (g : Globals) : Globals :=
  mkGlobals (g_app_status g) (right_paddle_swtich g) (g_previous_ticks g)
    (g_paddle_position g) (g_paddle_movement g) (g_right_paddle_position g)
    (g_right_paddle_movement g) (g_ball_position g) (g_ball_movement g)
    (g_paddle_speed g) v (paddle_y_distance g) (paddle_right_y_distance g)
    (paddle_ball_x_distance g) (paddle_ball_y_distance g)
    (right_paddle_ball_x_distance g) (right_paddle_ball_y_distance g).

(** The six [float]s under the comment [Constraints], assigned together
    by the block [DISTANCE CALCULATIONS]. *)
Definition set_distances (d0 d1 d2 d3 d4 d5 : Q) (g : Globals) : Globals :=
  mkGlobals (g_app_status g) (right_paddle_swtich g) (g_previous_ticks g)
    (g_paddle_position g) (g_paddle_movement g) (g_right_paddle_position g)
    (g_right_paddle_movement g) (g_ball_position g) (g_ball_movement g)
    (g_paddle_speed g) (g_ball_speed g) d0 d1 d2 d3 d4 d5.

(** ** Input *)

(** The fields of [SDL_Event] that [process_input] reads: [event.type]
    and [event.key.keysym.sym]. *)
Record SDL_Event : Type := mkEvent { ev_type : Z; ev_sym : Z }.

(** Values of the SDL2 headers. *)
Definition SDL_QUIT : Z := 256.
Definition SDL_WINDOWEVENT_CLOSE : Z := 14.
Definition SDL_KEYDOWN : Z := 768.
Definition SDLK_t : Z := 116.
Definition SDLK_p : Z := 112.
Definition SDL_SCANCODE_W : Z := 26.
Definition SDL_SCANCODE_S : Z := 22.
Definition SDL_SCANCODE_UP : Z := 82.
Definition SDL_SCANCODE_DOWN : Z := 81.

(** What one frame reads from its environment: the events queued for
    [SDL_PollEvent], the array of [SDL_GetKeyboardState] (an entry is
    [true] when the key is held) and the value of [SDL_GetTicks]. *)
Record FrameInput : Type := mkFrameInput {
  events : list SDL_Event;
  key_state : Z -> bool;
  sdl_ticks : Z
}.

(** ** [process_input] *)

(** The body of the [while (SDL_PollEvent(&event))] loop. *)
Definition handle_event (g : Globals) (event : SDL_Event) : Globals :=
  let g1 :=
    if (ev_type event =? SDL_QUIT)%Z || (ev_type event =? SDL_WINDOWEVENT_CLOSE)%Z
    then set_g_app_status TERMINATED g
    else g in
  if (ev_type event =? SDL_KEYDOWN)%Z then
    if (ev_sym event =? SDLK_t)%Z then
      set_right_paddle_swtich (right_paddle_swtich g1 * -1)%Z g1
    else if (ev_sym event =? SDLK_p)%Z then
      set_g_ball_movement (set_vx (g_ball_movement g1) (-1)) g1
    else g1
  else g1.

(** Lines 205-240: the held keys set the paddles' movement. *)
Definition read_keys (key_state : Z -> bool) (g : Globals) : Globals :=
  let g0 := set_g_right_paddle_movement (vec3_splat 0)
              (set_g_paddle_movement (vec3_splat 0) g) in
  let g1 :=
    if key_state SDL_SCANCODE_W then
      let h := set_g_paddle_movement (set_vy (g_paddle_movement g0) 1) g0 in
      if Qle_bool (paddle_y_distance h) 0
      then set_g_paddle_movement (set_vy (g_paddle_movement h) 0) h
      else h
    else g0 in
  let g2 :=
    if key_state SDL_SCANCODE_S then
      let h := set_g_paddle_movement (set_vy (g_paddle_movement g1) (-1)) g1 in
      if Qle_bool 6.3 (paddle_y_distance h)
      then set_g_paddle_movement (set_vy (g_paddle_movement h) 0) h
      else h
    else g1 in
  let g3 :=
    if key_state SDL_SCANCODE_UP then
      let h := set_g_right_paddle_movement (set_vy (g_right_paddle_movement g2) 1) g2 in
      if Qle_bool (paddle_right_y_distance h) 0
      then set_g_right_paddle_movement (set_vy (g_right_paddle_movement h) 0) h
      else h
    else g2 in
  if key_state SDL_SCANCODE_DOWN then
    let h := set_g_right_paddle_movement (set_vy (g_right_paddle_movement g3) (-1)) g3 in
    if Qle_bool 6.3 (paddle_right_y_distance h)
    then set_g_right_paddle_movement (set_vy (g_right_paddle_movement h) 0) h
    else h
  else g3.

Definition process_input (evs : list SDL_Event) (key_state : Z -> bool)
    (g : Globals) : Globals :=
  read_keys key_state (fold_left handle_event evs g).

(** ** [update] *)

(** Lines 254-266: the positions advance; the right paddle follows its
    movement vector when [right_paddle_swtich == -1] and the ball
    otherwise. *)
Definition integrate (delta_time : Q) (g : Globals) : Globals :=
  let g1 := set_g_ball_position
              (vadd (g_ball_position g)
                    (vscale (vscale (g_ball_movement g) (g_ball_speed g)) delta_time)) g in
  let g2 := set_g_paddle_position
              (vadd (g_paddle_position g1)
                    (vscale (vscale (g_paddle_movement g1) (g_paddle_speed g1)) delta_time)) g1 in
  if (right_paddle_swtich g2 =? -1)%Z then
    set_g_right_paddle_position
      (vadd (g_right_paddle_position g2)
            (vscale (vscale (g_right_paddle_movement g2) (g_paddle_speed g2)) delta_time)) g2
  else if Qlt_bool (vy (g_ball_position g2)) (vy (g_right_paddle_position g2)) then
    set_g_right_paddle_position
      (vadd (g_right_paddle_position g2)
            (vscale (vscale (mkvec3 0 (-1) 0) (g_paddle_speed g2)) delta_time)) g2
  else if Qlt_bool (vy (g_right_paddle_position g2)) (vy (g_ball_position g2)) then
    set_g_right_paddle_position
      (vadd (g_right_paddle_position g2)
            (vscale (vscale (mkvec3 0 1 0) (g_paddle_speed g2)) delta_time)) g2
  else g2.

(** Lines 269-274. *)
Definition distance_calculations (g : Globals) : Globals :=
  set_distances
    (3.15 - vy (g_paddle_position g))
    (3.15 - vy (g_right_paddle_position g))
    (Qabs (vx (g_ball_position g) - vx (g_paddle_position g))
       - (vx INIT_BALL_SCALE + vx INIT_PLAYER_1_SCALE) / 2)
    (Qabs (vy (g_ball_position g) - vy (g_paddle_position g))
       - (vy INIT_BALL_SCALE + vy INIT_PLAYER_1_SCALE) / 2)
    (Qabs (vx (g_ball_position g) - vx (g_right_paddle_position g))
       - (vx INIT_BALL_SCALE + vx INIT_PLAYER_2_SCALE) / 2)
    (Qabs (vy (g_ball_position g) - vy (g_right_paddle_position g))
       - (vy INIT_BALL_SCALE + vy INIT_PLAYER_2_SCALE) / 2)
    g.

(** The conditions of the [if] of line 276 and of the [else if] of
    line 289. *)
Definition left_collision (g : Globals) : bool :=
  Qle_bool (paddle_ball_x_distance g) 0 && Qle_bool (paddle_ball_y_distance g) 0.

Definition right_collision (g : Globals) : bool :=
  Qle_bool (right_paddle_ball_x_distance g) 0
  && Qle_bool (right_paddle_ball_y_distance g) 0.

(** Lines 278-287, the body of the [if]. *)
Definition left_paddle_branch (g : Globals) : Globals :=
  let g1 := set_g_ball_movement (set_vx (g_ball_movement g) 1) g in
  let g2 := set_g_ball_speed (g_ball_speed g1 * 1.015) g1 in
  if Qlt_bool (vy (g_paddle_movement g2)) 0 then
    set_g_ball_movement (set_vy (g_ball_movement g2) (-1)) g2
  else if Qlt_bool 0 (vy (g_paddle_movement g2)) then
    set_g_ball_movement (set_vy (g_ball_movement g2) 1) g2
  else g2.

(** Lines 291-300, the body of the [else if]. *)
Definition right_paddle_branch (g : Globals) : Globals :=
  let g1 := set_g_ball_movement (set_vx (g_ball_movement g) (-1)) g in
  let g2 := set_g_ball_speed (g_ball_speed g1 * 1.015) g1 in
  if Qlt_bool (vy (g_right_paddle_movement g2)) 0 then
    set_g_ball_movement (set_vy (g_ball_movement g2) (-1)) g2
  else if Qlt_bool 0 (vy (g_right_paddle_movement g2)) then
    set_g_ball_movement (set_vy (g_ball_movement g2) 1) g2
  else g2.

(** Lines 276-301. *)
Definition resolve_collisions (g : Globals) : Globals :=
  if left_collision g then left_paddle_branch g
  else if right_collision g then right_paddle_branch g
  else g.

(** Lines 302-305. *)
Definition vertical_bounce (g : Globals) : Globals :=
  if Qle_bool 3.5 (vy (g_ball_position g)) || Qle_bool (vy (g_ball_position g)) (-3.5)
  then set_g_ball_movement (set_vy (g_ball_movement g) (vy (g_ball_movement g) * -1)) g
  else g.

(** Lines 325-329. *)
Definition termination (g : Globals) : Globals :=
  if Qle_bool 5 (vx (g_ball_position g)) || Qle_bool (vx (g_ball_position g)) (-5)
  then set_g_app_status TERMINATED g
  else g.

(** [delta_time] of line 250 when [SDL_GetTicks] returns [ticks_ms]. *)
Definition delta_time_at (ticks_ms : Z) (g : Globals) : Q :=
  inject_Z ticks_ms / MILLISECONDS_IN_SECOND - g_previous_ticks g.

(** Lines 249-274: the state on which the collision tests of a call of
    [update] are evaluated, positions integrated and distances computed. *)
Definition before_collisions (ticks_ms : Z) (g : Globals) : Globals :=
  let ticks := inject_Z ticks_ms / MILLISECONDS_IN_SECOND in
  let delta_time := ticks - g_previous_ticks g in
  distance_calculations (integrate delta_time (set_g_previous_ticks ticks g)).

Definition update (ticks_ms : Z) (g : Globals) : Globals :=
  termination (vertical_bounce (resolve_collisions (before_collisions ticks_ms g))).

(** ** The loop of [main] *)

(** One iteration: [process_input(); update();]. *)
Definition frame (f : FrameInput) (g : Globals) : Globals :=
  update (sdl_ticks f) (process_input (events f) (key_state f) g).

(** The states a frame goes through: after [process_input], when the
    collision tests are evaluated, and after lines 276-301. *)
Definition after_input (f : FrameInput) (g : Globals) : Globals :=
  process_input (events f) (key_state f) g.

Definition at_tests (f : FrameInput) (g : Globals) : Globals :=
  before_collisions (sdl_ticks f) (after_input f g).

Definition after_collisions (f : FrameInput) (g : Globals) : Globals :=
  resolve_collisions (at_tests f g).

(** [while (g_app_status == RUNNING)], over the inputs of the frames to
    come. *)
Fixpoint main_loop (fs : list FrameInput) (g : Globals) : Globals :=
  match fs with
  | [] => g
  | f :: fs' =>
      match g_app_status g with
      | RUNNING => main_loop fs' (frame f g)
      | TERMINATED => g
      end
  end.

(** ** Which collision branch a step takes *)

Inductive Branch : Type := LeftPaddleBranch | RightPaddleBranch | NoBranch.

(** The branch of lines 276-301 chosen in state [g]. *)
Definition branch_taken (g : Globals) : Branch :=
  if left_collision g then LeftPaddleBranch
  else if right_collision g then RightPaddleBranch
  else NoBranch.

(** The branch chosen by the frame [f] run from [g]. *)
Definition frame_branch (f : FrameInput) (g : Globals) : Branch :=
  branch_taken (at_tests f g).

Definition is_hit (b : Branch) : bool :=
  match b with NoBranch => false | _ => true end.

(** Number of frames of the run in which a paddle branch was taken. *)
Fixpoint paddle_hits (fs : list FrameInput) (g : Globals) : nat :=
  match fs with
  | [] => O
  | f :: fs' =>
      match g_app_status g with
      | RUNNING =>
          ((if is_hit (frame_branch f g) then 1 else 0) + paddle_hits fs' (frame f g))%nat
      | TERMINATED => O
      end
  end.

(** ** Which inputs a frame consumes *)

(** The tests of [handle_event] on an event. *)
Definition is_quit (e : SDL_Event) : bool :=
  (ev_type e =? SDL_QUIT)%Z || (ev_type e =? SDL_WINDOWEVENT_CLOSE)%Z.

Definition is_keydown (sym : Z) (e : SDL_Event) : bool :=
  (ev_type e =? SDL_KEYDOWN)%Z && (ev_sym e =? sym)%Z.

(** Two frames hold the four movement keys alike. *)
Definition same_movement_keys (f1 f2 : FrameInput) : Prop :=
  key_state f1 SDL_SCANCODE_W = key_state f2 SDL_SCANCODE_W
  /\ key_state f1 SDL_SCANCODE_S = key_state f2 SDL_SCANCODE_S
  /\ key_state f1 SDL_SCANCODE_UP = key_state f2 SDL_SCANCODE_UP
  /\ key_state f1 SDL_SCANCODE_DOWN = key_state f2 SDL_SCANCODE_DOWN.

(** Quit requests and key-down events of the mode toggle [t]. *)
Definition quit_or_toggle (e : SDL_Event) : bool :=
  is_quit e || is_keydown SDLK_t e.

(** The events [handle_event] reacts to: the former and key-down of [p]. *)
Definition handled (e : SDL_Event) : bool :=
  quit_or_toggle e || is_keydown SDLK_p e.

(** Two frames agree on the movement keys, on the events selected by
    [sel] and on the clock. *)
Definition agree_on (sel : SDL_Event -> bool) (f1 f2 : FrameInput) : Prop :=
  same_movement_keys f1 f2
  /\ filter sel (events f1) = filter sel (events f2)
  /\ sdl_ticks f1 = sdl_ticks f2.

(** ** The ball's speed in binary32 *)

(** [g_ball_speed] is a [float] (binary32: 24 bits, [emax] 128) and the
    literal [1.015] a [double] (binary64: 53 bits, [emax] 1024).  A number
    [S754_finite s m e] is [(-1)^s * m * 2^e]. *)

(** [3.0f], the initialiser of line 88. *)
Definition float_3_0 : spec_float := S754_finite false 12582912 (-22).

(** The [double] nearest to 1.015. *)
Definition double_1_015 : spec_float :=
  S754_finite false 4571153621781053 (-52).




(** The rational a finite number stands for. *)
Definition SF2Q (x : spec_float) : option Q :=
  match x with
  | S754_zero _ => Some 0
  | S754_finite s m e => Some (inject_Z (cond_Zopp s (Zpos m)) * 2 ^ e)
  | _ => None
  end.



(** ** Events of a frame *)

(** Number of key-down events of [t] among [evs]. *)
Definition toggles (evs : list SDL_Event) : nat :=
  length (filter (is_keydown SDLK_t) evs).

(** Some event of [evs] is a quit request. *)
Definition quit_requested (evs : list SDL_Event) : bool :=
  existsb is_quit evs.

(** Some event of [evs] is a key-down of [p]. *)
Definition served (evs : list SDL_Event) : bool :=
  existsb (is_keydown SDLK_p) evs.

(** No frame of [fs] holds a key-down of [p]; none holds a quit request. *)
Definition unserved (fs : list FrameInput) : bool :=
  forallb (fun f => negb (served (events f))) fs.

Definition no_quit (fs : list FrameInput) : bool :=
  forallb (fun f => negb (quit_requested (events f))) fs.

(** ** Properties of the globals kept by every frame *)

(** The columns of the initial globals. *)
Definition in_columns (g : Globals) : Prop :=
  vx (g_paddle_position g) == -4 /\ vz (g_paddle_position g) == 0
  /\ vx (g_right_paddle_position g) == 4
  /\ vz (g_right_paddle_position g) == 0.

(** The ball's direction has components -1, 0 or 1 and no depth. *)
Definition unit_directions (g : Globals) : Prop :=
  (vx (g_ball_movement g) = -1 \/ vx (g_ball_movement g) = 0
   \/ vx (g_ball_movement g) = 1)
  /\ (vy (g_ball_movement g) == -1 \/ vy (g_ball_movement g) == 0
      \/ vy (g_ball_movement g) == 1)
  /\ vz (g_ball_movement g) = 0.

(** The ball lies at the origin without a direction, as initially. *)
Definition at_rest (g : Globals) : Prop :=
  g_ball_movement g = mkvec3 0 0 0
  /\ vx (g_ball_position g) == 0 /\ vy (g_ball_position g) == 0
  /\ vz (g_ball_position g) == 0.

(** ** States and frames of the examples *)

Definition no_keys : Z -> bool := fun _ => false.

Definition only_key (k : Z) : Z -> bool := fun k' => (k' =? k)%Z.

(** A frame without events, with the keys [ks] held, at [ticks_ms]. *)
Definition quiet_frame (ks : Z -> bool) (ticks_ms : Z) : FrameInput :=
  mkFrameInput [] ks ticks_ms.

(** The globals [g] with the ball at [pos] moving along [dir]. *)
Definition with_ball (pos dir : vec3) (g : Globals) : Globals :=
  set_g_ball_movement dir (set_g_ball_position pos g).


(** The ball next to the left paddle, going left. *)
Definition ball_at_3_65 : Globals :=
  with_ball (mkvec3 (-3.65) 0 0) (mkvec3 (-1) 0 0) initial_globals.

(** The same with the right paddle moved onto the left one. *)
Definition paddles_overlapping : Globals :=
  set_g_right_paddle_position (mkvec3 (-4) 0 0) ball_at_3_65.

(** The ball next to the right paddle, going right. *)
Definition ball_at_right_paddle : Globals :=
  with_ball (mkvec3 3.6 0 0) (mkvec3 1 0 0) initial_globals.

(** The ball above the upper bound, going up. *)
Definition ball_at_top : Globals :=
  with_ball (mkvec3 0 3.6 0) (mkvec3 0 1 0) initial_globals.

(** The ball above the upper bound, going up, within reach of the left
    paddle, which has climbed to [y = 3]. *)
Definition ball_at_top_left_corner : Globals :=
  set_distances 0.15 3.15 0 0 0 0
    (set_g_paddle_position (mkvec3 (-4) 3 0)
       (with_ball (mkvec3 (-3.8) 3.6 0) (mkvec3 (-1) 1 0) initial_globals)).

(** The ball about to leave the field on the right. *)
Definition ball_leaving : Globals :=
  with_ball (mkvec3 4.99 0 0) (mkvec3 1 0 0) initial_globals.

(** The ball at rest at [y = 2.0]. *)
Definition ball_at_2 : Globals :=
  with_ball (mkvec3 0 2.0 0) (mkvec3 0 0 0) initial_globals.

(** The right paddle tracking, the ball coming down onto it. *)
Definition tracking_ball_near : Globals :=
  set_right_paddle_swtich 1
    (with_ball (mkvec3 3.6 0.3 0) (mkvec3 1 (-1) 0) initial_globals).

(** Frames with a key-down event of [t], of [p], of [a]. *)
Definition toggle_frame (ticks_ms : Z) : FrameInput :=
  mkFrameInput [mkEvent SDL_KEYDOWN SDLK_t] no_keys ticks_ms.

Definition serve_frame (ticks_ms : Z) : FrameInput :=
  mkFrameInput [mkEvent SDL_KEYDOWN SDLK_p] no_keys ticks_ms.

Definition noisy_frame (ticks_ms : Z) : FrameInput :=
  mkFrameInput [mkEvent SDL_KEYDOWN 97]
    (fun k => (k =? SDL_SCANCODE_W)%Z || (k =? 4)%Z) ticks_ms.

(** A frame with a quit request. *)
Definition quit_frame (ticks_ms : Z) : FrameInput :=
  mkFrameInput [mkEvent SDL_QUIT 0] no_keys ticks_ms.

(** The left paddle at the upper bound, the right one at the lower bound,
    with the distances [update] stores there. *)
Definition paddles_at_bounds : Globals :=
  set_distances 0 6.3 0 0 0 0
    (set_g_right_paddle_position (mkvec3 4 (-3.15) 0)
       (set_g_paddle_position (mkvec3 (-4) 3.15 0) initial_globals)).

(** * Proofs *)

(** ** Boolean comparisons *)

Lemma Qlt_bool_iff (a b : Q) : Qlt_bool a b = true <-> a < b.
Proof. unfold Qlt_bool, Qlt. apply Z.ltb_lt. Qed.

Lemma Qlt_bool_false_iff (a b : Q) : Qlt_bool a b = false <-> b <= a.
Proof. unfold Qlt_bool, Qle. rewrite Z.ltb_ge. reflexivity. Qed.

(** Projections of assignments. *)
Ltac norm :=
  cbn [g_app_status right_paddle_swtich g_previous_ticks g_paddle_position
       g_paddle_movement g_right_paddle_position g_right_paddle_movement
       g_ball_position g_ball_movement g_paddle_speed g_ball_speed
       paddle_y_distance paddle_right_y_distance paddle_ball_x_distance
       paddle_ball_y_distance right_paddle_ball_x_distance
       right_paddle_ball_y_distance
       set_g_app_status set_right_paddle_swtich set_g_previous_ticks
       set_g_paddle_position set_g_paddle_movement
       set_g_right_paddle_position set_g_right_paddle_movement
       set_g_ball_position set_g_ball_movement set_g_ball_speed set_distances
       vx vy vz set_vx set_vy vec3_splat vadd vscale] in *.

(** Case analysis on every test of a goal, innermost tests first. *)
Ltac break_ifs :=
  repeat (norm;
          match goal with
          | |- context [if ?c then _ else _] =>
              lazymatch c with
              | context [if _ then _ else _] => fail
              | _ => destruct c eqn:?
              end
          end);
  norm.

(** Case analysis on every test of a goal. *)
Ltac case_tests :=
  cbv zeta;
  repeat match goal with
         | |- context [if ?c then _ else _] => destruct c
         end.

(** Rewrites with the assumptions that a projection ignores an
    assignment, until none applies. *)
Ltac ignore_assignments :=
  repeat match goal with
         | H : forall v g, _ (_ v g) = _ g |- _ => rewrite H
         end;
  reflexivity.

(** ** What each phase leaves alone *)

(** A projection [pr] of the globals is untouched by a phase as soon as it
    is untouched by the assignments the phase makes. *)
Section Preserved.
Context {A : Type} (pr : Globals -> A).

Lemma handle_event_preserves :
  (forall v g, pr (set_g_app_status v g) = pr g) ->
  (forall v g, pr (set_right_paddle_swtich v g) = pr g) ->
  (forall v g, pr (set_g_ball_movement v g) = pr g) ->
  forall g e, pr (handle_event g e) = pr g.
Proof.
  intros H1 H2 H3 g e. unfold handle_event.
  case_tests; ignore_assignments.
Qed.

Lemma fold_handle_event_preserves :
  (forall g e, pr (handle_event g e) = pr g) ->
  forall evs g, pr (fold_left handle_event evs g) = pr g.
Proof.
  intros H evs. induction evs as [|e evs IH]; intro g; simpl.
  - reflexivity.
  - rewrite IH. apply H.
Qed.

Lemma read_keys_preserves :
  (forall v g, pr (set_g_paddle_movement v g) = pr g) ->
  (forall v g, pr (set_g_right_paddle_movement v g) = pr g) ->
  forall ks g, pr (read_keys ks g) = pr g.
Proof.
  intros H1 H2 ks g. unfold read_keys.
  case_tests; ignore_assignments.
Qed.

Lemma process_input_preserves :
  (forall v g, pr (set_g_app_status v g) = pr g) ->
  (forall v g, pr (set_right_paddle_swtich v g) = pr g) ->
  (forall v g, pr (set_g_ball_movement v g) = pr g) ->
  (forall v g, pr (set_g_paddle_movement v g) = pr g) ->
  (forall v g, pr (set_g_right_paddle_movement v g) = pr g) ->
  forall evs ks g, pr (process_input evs ks g) = pr g.
Proof.
  intros H1 H2 H3 H4 H5 evs ks g. unfold process_input.
  rewrite read_keys_preserves by assumption.
  apply fold_handle_event_preserves.
  apply handle_event_preserves; assumption.
Qed.

Lemma integrate_preserves :
  (forall v g, pr (set_g_ball_position v g) = pr g) ->
  (forall v g, pr (set_g_paddle_position v g) = pr g) ->
  (forall v g, pr (set_g_right_paddle_position v g) = pr g) ->
  forall dt g, pr (integrate dt g) = pr g.
Proof.
  intros H1 H2 H3 dt g. unfold integrate.
  case_tests; ignore_assignments.
Qed.

Lemma distance_calculations_preserves :
  (forall d0 d1 d2 d3 d4 d5 g, pr (set_distances d0 d1 d2 d3 d4 d5 g) = pr g) ->
  forall g, pr (distance_calculations g) = pr g.
Proof. intros H g. unfold distance_calculations. apply H. Qed.

Lemma before_collisions_preserves :
  (forall v g, pr (set_g_previous_ticks v g) = pr g) ->
  (forall v g, pr (set_g_ball_position v g) = pr g) ->
  (forall v g, pr (set_g_paddle_position v g) = pr g) ->
  (forall v g, pr (set_g_right_paddle_position v g) = pr g) ->
  (forall d0 d1 d2 d3 d4 d5 g, pr (set_distances d0 d1 d2 d3 d4 d5 g) = pr g) ->
  forall t g, pr (before_collisions t g) = pr g.
Proof.
  intros H0 H1 H2 H3 H4 t g. unfold before_collisions.
  rewrite distance_calculations_preserves by assumption.
  rewrite integrate_preserves by assumption. apply H0.
Qed.

Lemma resolve_collisions_preserves :
  (forall v g, pr (set_g_ball_movement v g) = pr g) ->
  (forall v g, pr (set_g_ball_speed v g) = pr g) ->
  forall g, pr (resolve_collisions g) = pr g.
Proof.
  intros H1 H2 g.
  unfold resolve_collisions, left_paddle_branch, right_paddle_branch.
  case_tests; ignore_assignments.
Qed.

Lemma vertical_bounce_preserves :
  (forall v g, pr (set_g_ball_movement v g) = pr g) ->
  forall g, pr (vertical_bounce g) = pr g.
Proof.
  intros H g. unfold vertical_bounce.
  case_tests; ignore_assignments.
Qed.

Lemma termination_preserves :
  (forall v g, pr (set_g_app_status v g) = pr g) ->
  forall g, pr (termination g) = pr g.
Proof.
  intros H g. unfold termination.
  case_tests; ignore_assignments.
Qed.
End Preserved.

(** Pushes the projection [pr] through the phases that do not assign it. *)
Ltac through pr :=
  repeat first
    [ rewrite (termination_preserves pr) by (intros; reflexivity)
    | rewrite (vertical_bounce_preserves pr) by (intros; reflexivity)
    | rewrite (resolve_collisions_preserves pr) by (intros; reflexivity)
    | rewrite (before_collisions_preserves pr) by (intros; reflexivity)
    | rewrite (distance_calculations_preserves pr) by (intros; reflexivity)
    | rewrite (integrate_preserves pr) by (intros; reflexivity)
    | rewrite (process_input_preserves pr) by (intros; reflexivity)
    | rewrite (read_keys_preserves pr) by (intros; reflexivity) ].

Ltac unfold_frame :=
  unfold frame, frame_branch, after_collisions, at_tests, after_input, update.

(** ** Ball speed *)

Lemma left_paddle_branch_speed g :
  g_ball_speed (left_paddle_branch g) = g_ball_speed g * 1.015.
Proof. unfold left_paddle_branch. break_ifs; reflexivity. Qed.

Lemma right_paddle_branch_speed g :
  g_ball_speed (right_paddle_branch g) = g_ball_speed g * 1.015.
Proof. unfold right_paddle_branch. break_ifs; reflexivity. Qed.

Lemma resolve_collisions_speed g :
  g_ball_speed (resolve_collisions g) =
  if is_hit (branch_taken g) then g_ball_speed g * 1.015 else g_ball_speed g.
Proof.
  unfold resolve_collisions, branch_taken.
  destruct (left_collision g); [apply left_paddle_branch_speed|].
  destruct (right_collision g); [apply right_paddle_branch_speed|reflexivity].
Qed.

Lemma frame_speed f g :
  g_ball_speed (frame f g) =
  if is_hit (frame_branch f g) then g_ball_speed g * 1.015 else g_ball_speed g.
Proof.
  unfold_frame. through g_ball_speed.
  rewrite resolve_collisions_speed. through g_ball_speed. reflexivity.
Qed.

Lemma Qpower_succ (q : Q) (n : nat) :
  q ^ Z.of_nat (S n) == q * q ^ Z.of_nat n.
Proof.
  rewrite Nat2Z.inj_succ. unfold Z.succ.
  rewrite Qpower_plus' by lia. rewrite Qpower_1_r. ring.
Qed.

Lemma main_loop_speed fs : forall g,
  g_ball_speed (main_loop fs g)
  == g_ball_speed g * 1.015 ^ Z.of_nat (paddle_hits fs g).
Proof.
  induction fs as [|f fs IH]; intro g; simpl main_loop; simpl paddle_hits.
  - simpl. ring.
  - destruct (g_app_status g).
    + rewrite IH, frame_speed.
      destruct (is_hit (frame_branch f g)).
      * change (1 + paddle_hits fs (frame f g))%nat
          with (S (paddle_hits fs (frame f g))).
        rewrite Qpower_succ. ring.
      * simpl Nat.add. reflexivity.
    + simpl. ring.
Qed.

Lemma main_loop_speed_pos fs g :
  0 < g_ball_speed g -> 0 < g_ball_speed (main_loop fs g).
Proof.
  intro H. rewrite main_loop_speed.
  apply Qmult_lt_0_compat; [exact H|].
  apply Qpower_0_lt. reflexivity.
Qed.

(** With exact multiplications: in every run of the loop from the initial
    globals, the ball's speed is [3 * 1.015 ^ N] where [N] is the number of
    frames so far that took a paddle-collision branch, and one more frame
    never lowers it. *)
Theorem ball_speed_ramp (fs : list FrameInput) :
  g_ball_speed (main_loop fs initial_globals)
    == 3 * 1.015 ^ Z.of_nat (paddle_hits fs initial_globals)
  /\ forall f : FrameInput,
       g_ball_speed (main_loop fs initial_globals)
         <= g_ball_speed (frame f (main_loop fs initial_globals)).
Proof.
  split.
  - rewrite main_loop_speed. reflexivity.
  - intro f. rewrite frame_speed.
    assert (H : 0 < g_ball_speed (main_loop fs initial_globals))
      by (apply main_loop_speed_pos; reflexivity).
    destruct (is_hit (frame_branch f (main_loop fs initial_globals))); lra.
Qed.

(** ** [process_input]: the movement vectors *)

Lemma read_keys_paddle_movement ks g :
  g_paddle_movement (read_keys ks g) =
  mkvec3 0
    (if ks SDL_SCANCODE_S
     then if Qle_bool 6.3 (paddle_y_distance g) then 0 else -1
     else if ks SDL_SCANCODE_W
          then if Qle_bool (paddle_y_distance g) 0 then 0 else 1
          else 0)
    0.
Proof. unfold read_keys. break_ifs; reflexivity. Qed.

Lemma read_keys_right_paddle_movement ks g :
  g_right_paddle_movement (read_keys ks g) =
  mkvec3 0
    (if ks SDL_SCANCODE_DOWN
     then if Qle_bool 6.3 (paddle_right_y_distance g) then 0 else -1
     else if ks SDL_SCANCODE_UP
          then if Qle_bool (paddle_right_y_distance g) 0 then 0 else 1
          else 0)
    0.
Proof. unfold read_keys. break_ifs; reflexivity. Qed.

(** The paddles' movement after [process_input], as a function of the held
    keys and of the stored distances. *)
Lemma process_input_paddle_movement evs ks g :
  g_paddle_movement (process_input evs ks g) =
  mkvec3 0
    (if ks SDL_SCANCODE_S
     then if Qle_bool 6.3 (paddle_y_distance g) then 0 else -1
     else if ks SDL_SCANCODE_W
          then if Qle_bool (paddle_y_distance g) 0 then 0 else 1
          else 0)
    0.
Proof.
  unfold process_input. rewrite read_keys_paddle_movement.
  rewrite (fold_handle_event_preserves paddle_y_distance)
    by (apply handle_event_preserves; reflexivity).
  reflexivity.
Qed.

Lemma process_input_right_paddle_movement evs ks g :
  g_right_paddle_movement (process_input evs ks g) =
  mkvec3 0
    (if ks SDL_SCANCODE_DOWN
     then if Qle_bool 6.3 (paddle_right_y_distance g) then 0 else -1
     else if ks SDL_SCANCODE_UP
          then if Qle_bool (paddle_right_y_distance g) 0 then 0 else 1
          else 0)
    0.
Proof.
  unfold process_input. rewrite read_keys_right_paddle_movement.
  rewrite (fold_handle_event_preserves paddle_right_y_distance)
    by (apply handle_event_preserves; reflexivity).
  reflexivity.
Qed.

(** [update] ends with the distances of the positions it has just
    computed. *)
Lemma update_paddle_y_distance t g :
  paddle_y_distance (update t g) = 3.15 - vy (g_paddle_position (update t g)).
Proof.
  unfold update. through paddle_y_distance. through g_paddle_position.
  reflexivity.
Qed.

Lemma update_paddle_right_y_distance t g :
  paddle_right_y_distance (update t g)
  = 3.15 - vy (g_right_paddle_position (update t g)).
Proof.
  unfold update. through paddle_right_y_distance.
  through g_right_paddle_position. reflexivity.
Qed.

(** ** [integrate]: the new positions *)

Lemma integrate_ball_position dt g :
  g_ball_position (integrate dt g)
  = vadd (g_ball_position g)
      (vscale (vscale (g_ball_movement g) (g_ball_speed g)) dt).
Proof. unfold integrate. break_ifs; reflexivity. Qed.

Lemma integrate_paddle_position dt g :
  g_paddle_position (integrate dt g)
  = vadd (g_paddle_position g)
      (vscale (vscale (g_paddle_movement g) (g_paddle_speed g)) dt).
Proof. unfold integrate. break_ifs; reflexivity. Qed.

Lemma integrate_right_paddle_position dt g :
  g_right_paddle_position (integrate dt g)
  = if (right_paddle_swtich g =? -1)%Z then
      vadd (g_right_paddle_position g)
        (vscale (vscale (g_right_paddle_movement g) (g_paddle_speed g)) dt)
    else if Qlt_bool (vy (g_ball_position (integrate dt g)))
                     (vy (g_right_paddle_position g)) then
      vadd (g_right_paddle_position g)
        (vscale (vscale (mkvec3 0 (-1) 0) (g_paddle_speed g)) dt)
    else if Qlt_bool (vy (g_right_paddle_position g))
                     (vy (g_ball_position (integrate dt g))) then
      vadd (g_right_paddle_position g)
        (vscale (vscale (mkvec3 0 1 0) (g_paddle_speed g)) dt)
    else g_right_paddle_position g.
Proof.
  rewrite integrate_ball_position. unfold integrate. norm.
  destruct (right_paddle_swtich g =? -1)%Z; [reflexivity|].
  break_ifs; reflexivity.
Qed.

(** C7. After [process_input] each paddle's movement is [(0, m, 0)] with
    [m] one of -1, 0, 1.  [m] is computed from the held keys and from the
    stored [paddle_y_distance] (resp. [paddle_right_y_distance]) alone:
    when that distance says the paddle is at the upper bound ([<= 0]) the
    movement is never upward and is 0 unless the down key is held, when it
    says the paddle is at the lower bound ([>= 6.3]) the movement is never
    downward and the down key gives 0.  The stored distance is the one the
    previous [update] computed from the position it ended with; the
    position of the current frame is computed afterwards, from [m]. *)
Theorem paddle_movement_clamped (f : FrameInput) (g : Globals) :
  let p := after_input f g in
  let m := vy (g_paddle_movement p) in
  let mr := vy (g_right_paddle_movement p) in
  ((m = -1 \/ m = 0 \/ m = 1) /\ vx (g_paddle_movement p) = 0
     /\ vz (g_paddle_movement p) = 0)
  /\ ((mr = -1 \/ mr = 0 \/ mr = 1) /\ vx (g_right_paddle_movement p) = 0
      /\ vz (g_right_paddle_movement p) = 0)
  /\ m = (if key_state f SDL_SCANCODE_S
          then if Qle_bool 6.3 (paddle_y_distance g) then 0 else -1
          else if key_state f SDL_SCANCODE_W
               then if Qle_bool (paddle_y_distance g) 0 then 0 else 1
               else 0)
  /\ mr = (if key_state f SDL_SCANCODE_DOWN
           then if Qle_bool 6.3 (paddle_right_y_distance g) then 0 else -1
           else if key_state f SDL_SCANCODE_UP
                then if Qle_bool (paddle_right_y_distance g) 0 then 0 else 1
                else 0)
  /\ (paddle_y_distance g <= 0 ->
      m <= 0 /\ (key_state f SDL_SCANCODE_S = false -> m = 0))
  /\ (6.3 <= paddle_y_distance g ->
      0 <= m /\ (key_state f SDL_SCANCODE_S = true -> m = 0))
  /\ (paddle_right_y_distance g <= 0 ->
      mr <= 0 /\ (key_state f SDL_SCANCODE_DOWN = false -> mr = 0))
  /\ (6.3 <= paddle_right_y_distance g ->
      0 <= mr /\ (key_state f SDL_SCANCODE_DOWN = true -> mr = 0))
  /\ (forall f0 g0,
        paddle_y_distance (frame f0 g0)
          = 3.15 - vy (g_paddle_position (frame f0 g0))
        /\ paddle_right_y_distance (frame f0 g0)
          = 3.15 - vy (g_right_paddle_position (frame f0 g0)))
  /\ g_paddle_position (frame f g)
     = vadd (g_paddle_position g)
         (vscale (vscale (g_paddle_movement p) (g_paddle_speed g))
                 (delta_time_at (sdl_ticks f) g)).
Proof.
  intros p m mr. subst p m mr. unfold after_input.
  rewrite process_input_paddle_movement, process_input_right_paddle_movement.
  cbn [vx vy vz].
  split; [split; [break_ifs; auto | split; reflexivity]|].
  split; [split; [break_ifs; auto | split; reflexivity]|].
  split; [reflexivity|]. split; [reflexivity|].
  split; [|split; [|split; [|split; [|split]]]].
  - intro H. apply Qle_bool_iff in H. rewrite H. split.
    + destruct (key_state f SDL_SCANCODE_S);
        [destruct (Qle_bool 6.3 (paddle_y_distance g))|];
        try destruct (key_state f SDL_SCANCODE_W); lra.
    + intro HS. rewrite HS.
      destruct (key_state f SDL_SCANCODE_W); reflexivity.
  - intro H. apply Qle_bool_iff in H. rewrite H. split.
    + destruct (key_state f SDL_SCANCODE_S);
        [|destruct (key_state f SDL_SCANCODE_W);
          [destruct (Qle_bool (paddle_y_distance g) 0)|]]; lra.
    + intro HS. rewrite HS. reflexivity.
  - intro H. apply Qle_bool_iff in H. rewrite H. split.
    + destruct (key_state f SDL_SCANCODE_DOWN);
        [destruct (Qle_bool 6.3 (paddle_right_y_distance g))|];
        try destruct (key_state f SDL_SCANCODE_UP); lra.
    + intro HS. rewrite HS.
      destruct (key_state f SDL_SCANCODE_UP); reflexivity.
  - intro H. apply Qle_bool_iff in H. rewrite H. split.
    + destruct (key_state f SDL_SCANCODE_DOWN);
        [|destruct (key_state f SDL_SCANCODE_UP);
          [destruct (Qle_bool (paddle_right_y_distance g) 0)|]]; lra.
    + intro HS. rewrite HS. reflexivity.
  - intros f0 g0. unfold frame. split.
    + apply update_paddle_y_distance.
    + apply update_paddle_right_y_distance.
  - unfold frame, update. through g_paddle_position.
    unfold before_collisions.
    rewrite (distance_calculations_preserves g_paddle_position)
      by (intros; reflexivity).
    rewrite integrate_paddle_position. norm.
    rewrite process_input_paddle_movement.
    rewrite (process_input_preserves g_paddle_position),
      (process_input_preserves g_paddle_speed),
      (process_input_preserves g_previous_ticks) by (intros; reflexivity).
    reflexivity.
Qed.

(** ** The collision branches *)

Lemma left_collision_iff g :
  left_collision g = true
  <-> paddle_ball_x_distance g <= 0 /\ paddle_ball_y_distance g <= 0.
Proof.
  unfold left_collision. rewrite andb_true_iff, !Qle_bool_iff. reflexivity.
Qed.

Lemma right_collision_iff g :
  right_collision g = true
  <-> right_paddle_ball_x_distance g <= 0 /\ right_paddle_ball_y_distance g <= 0.
Proof.
  unfold right_collision. rewrite andb_true_iff, !Qle_bool_iff. reflexivity.
Qed.

Lemma left_paddle_branch_movement g :
  g_ball_movement (left_paddle_branch g)
  = mkvec3 1
      (if Qlt_bool (vy (g_paddle_movement g)) 0 then -1
       else if Qlt_bool 0 (vy (g_paddle_movement g)) then 1
       else vy (g_ball_movement g))
      (vz (g_ball_movement g)).
Proof. unfold left_paddle_branch. break_ifs; reflexivity. Qed.

Lemma right_paddle_branch_movement g :
  g_ball_movement (right_paddle_branch g)
  = mkvec3 (-1)
      (if Qlt_bool (vy (g_right_paddle_movement g)) 0 then -1
       else if Qlt_bool 0 (vy (g_right_paddle_movement g)) then 1
       else vy (g_ball_movement g))
      (vz (g_ball_movement g)).
Proof. unfold right_paddle_branch. break_ifs; reflexivity. Qed.

(** The sign tests of a branch, on a movement component that
    [process_input] has set. *)
Lemma sign_of_unit (m y : Q) :
  m = -1 \/ m = 0 \/ m = 1 ->
  (if Qlt_bool m 0 then -1 else if Qlt_bool 0 m then 1 else y)
  = (if Qeq_bool m 0 then y else m).
Proof. intros [-> | [-> | ->]]; reflexivity. Qed.

Lemma vertical_bounce_movement_x g :
  vx (g_ball_movement (vertical_bounce g)) = vx (g_ball_movement g).
Proof. unfold vertical_bounce. break_ifs; reflexivity. Qed.

Lemma handle_event_movement_y g e :
  vy (g_ball_movement (handle_event g e)) = vy (g_ball_movement g).
Proof. unfold handle_event. break_ifs; reflexivity. Qed.

Lemma process_input_movement_y evs ks g :
  vy (g_ball_movement (process_input evs ks g)) = vy (g_ball_movement g).
Proof.
  unfold process_input.
  rewrite (read_keys_preserves g_ball_movement) by (intros; reflexivity).
  apply (fold_handle_event_preserves (fun g => vy (g_ball_movement g))).
  apply handle_event_movement_y.
Qed.

(** The movement vectors that the branches read, in terms of the frame's
    state after [process_input]. *)
Lemma at_tests_paddle_movement f g :
  g_paddle_movement (at_tests f g) = g_paddle_movement (after_input f g).
Proof. unfold at_tests. through g_paddle_movement. reflexivity. Qed.

Lemma at_tests_right_paddle_movement f g :
  g_right_paddle_movement (at_tests f g)
  = g_right_paddle_movement (after_input f g).
Proof. unfold at_tests. through g_right_paddle_movement. reflexivity. Qed.

Lemma at_tests_ball_movement f g :
  g_ball_movement (at_tests f g) = g_ball_movement (after_input f g).
Proof. unfold at_tests. through g_ball_movement. reflexivity. Qed.

Lemma at_tests_speed f g : g_ball_speed (at_tests f g) = g_ball_speed g.
Proof. unfold at_tests, after_input. through g_ball_speed. reflexivity. Qed.

Lemma after_input_unit f g :
  let m := vy (g_paddle_movement (after_input f g)) in
  m = -1 \/ m = 0 \/ m = 1.
Proof.
  unfold after_input. rewrite process_input_paddle_movement. break_ifs; auto.
Qed.

Lemma after_input_right_unit f g :
  let m := vy (g_right_paddle_movement (after_input f g)) in
  m = -1 \/ m = 0 \/ m = 1.
Proof.
  unfold after_input. rewrite process_input_right_paddle_movement.
  break_ifs; auto.
Qed.

Lemma after_input_movement_y f g :
  vy (g_ball_movement (after_input f g)) = vy (g_ball_movement g).
Proof. unfold after_input. apply process_input_movement_y. Qed.

Lemma frame_after_collisions f g :
  frame f g = termination (vertical_bounce (after_collisions f g)).
Proof. unfold_frame. reflexivity. Qed.

(** C2. In a frame whose left-paddle test fires (both gaps [<= 0]) lines
    276-301 set the ball's x-direction to 1, multiply the speed by 1.015 and
    set the y-direction to the left paddle's movement of this frame when
    that is not 0, leaving it as it was otherwise; x-direction and speed are
    still so at the end of the frame.  When the left test does not fire and
    the right one does, the same holds with x-direction -1 and the right
    paddle's movement. *)
Theorem paddle_collision_effect (f : FrameInput) (g : Globals) :
  let p := after_input f g in
  let b := at_tests f g in
  let r := after_collisions f g in
  (paddle_ball_x_distance b <= 0 /\ paddle_ball_y_distance b <= 0 ->
   vx (g_ball_movement r) = 1
   /\ g_ball_speed r = g_ball_speed g * 1.015
   /\ (~ vy (g_paddle_movement p) == 0 ->
       vy (g_ball_movement r) = vy (g_paddle_movement p))
   /\ (vy (g_paddle_movement p) == 0 ->
       vy (g_ball_movement r) = vy (g_ball_movement g))
   /\ vx (g_ball_movement (frame f g)) = 1
   /\ g_ball_speed (frame f g) = g_ball_speed g * 1.015)
  /\
  (~ (paddle_ball_x_distance b <= 0 /\ paddle_ball_y_distance b <= 0) ->
   right_paddle_ball_x_distance b <= 0 /\ right_paddle_ball_y_distance b <= 0 ->
   vx (g_ball_movement r) = -1
   /\ g_ball_speed r = g_ball_speed g * 1.015
   /\ (~ vy (g_right_paddle_movement p) == 0 ->
       vy (g_ball_movement r) = vy (g_right_paddle_movement p))
   /\ (vy (g_right_paddle_movement p) == 0 ->
       vy (g_ball_movement r) = vy (g_ball_movement g))
   /\ vx (g_ball_movement (frame f g)) = -1
   /\ g_ball_speed (frame f g) = g_ball_speed g * 1.015).
Proof.
  intros p b r. subst p b r. split.
  - intro H. apply left_collision_iff in H.
    rewrite frame_after_collisions.
    through g_ball_speed. through g_ball_movement.
    rewrite vertical_bounce_movement_x.
    unfold after_collisions, resolve_collisions. rewrite H.
    rewrite left_paddle_branch_movement, left_paddle_branch_speed.
    rewrite at_tests_paddle_movement, at_tests_ball_movement, at_tests_speed.
    rewrite sign_of_unit by apply after_input_unit.
    cbn [vx vy]. rewrite after_input_movement_y.
    repeat split; try reflexivity.
    + intro NZ. destruct (Qeq_bool _ 0) eqn:E; [|reflexivity].
      apply Qeq_bool_iff in E. contradiction.
    + intro Z. apply Qeq_bool_iff in Z. rewrite Z. reflexivity.
  - intros NL H. apply right_collision_iff in H.
    assert (L : left_collision (at_tests f g) = false).
    { destruct (left_collision (at_tests f g)) eqn:E; [|reflexivity].
      apply left_collision_iff in E. contradiction. }
    rewrite frame_after_collisions.
    through g_ball_speed. through g_ball_movement.
    rewrite vertical_bounce_movement_x.
    unfold after_collisions, resolve_collisions. rewrite L, H.
    rewrite right_paddle_branch_movement, right_paddle_branch_speed.
    rewrite at_tests_right_paddle_movement, at_tests_ball_movement,
      at_tests_speed.
    rewrite sign_of_unit by apply after_input_right_unit.
    cbn [vx vy]. rewrite after_input_movement_y.
    repeat split; try reflexivity.
    + intro NZ. destruct (Qeq_bool _ 0) eqn:E; [|reflexivity].
      apply Qeq_bool_iff in E. contradiction.
    + intro Z. apply Qeq_bool_iff in Z. rewrite Z. reflexivity.
Qed.

Lemma branch_taken_resolve g :
  resolve_collisions g =
  match branch_taken g with
  | LeftPaddleBranch => left_paddle_branch g
  | RightPaddleBranch => right_paddle_branch g
  | NoBranch => g
  end.
Proof.
  unfold resolve_collisions, branch_taken.
  destruct (left_collision g); [reflexivity|].
  destruct (right_collision g); reflexivity.
Qed.

(** C4, as amended.  A frame takes at most one of the two paddle branches:
    the left one exactly when the left test holds, the right one exactly
    when the left test fails and the right test holds, none when both fail;
    lines 276-301 then act as the body of that branch alone.  When both
    tests hold only the left body runs: x-direction 1 and one
    multiplication of the speed. *)
Theorem at_most_one_branch (f : FrameInput) (g : Globals) :
  let b := at_tests f g in
  let L := paddle_ball_x_distance b <= 0 /\ paddle_ball_y_distance b <= 0 in
  let R := right_paddle_ball_x_distance b <= 0
           /\ right_paddle_ball_y_distance b <= 0 in
  after_collisions f g
    = match frame_branch f g with
      | LeftPaddleBranch => left_paddle_branch b
      | RightPaddleBranch => right_paddle_branch b
      | NoBranch => b
      end
  /\ (frame_branch f g = LeftPaddleBranch <-> L)
  /\ (frame_branch f g = RightPaddleBranch <-> ~ L /\ R)
  /\ (frame_branch f g = NoBranch <-> ~ L /\ ~ R)
  /\ (L /\ R ->
      after_collisions f g = left_paddle_branch b
      /\ vx (g_ball_movement (frame f g)) = 1
      /\ g_ball_speed (frame f g) = g_ball_speed g * 1.015).
Proof.
  intros b L R. subst L R.
  rewrite <- left_collision_iff, <- right_collision_iff.
  assert (HB : frame_branch f g = branch_taken b)
    by (unfold frame_branch; reflexivity).
  assert (HA : after_collisions f g = resolve_collisions b)
    by (unfold after_collisions; reflexivity).
  split; [rewrite HA, HB; apply branch_taken_resolve|].
  split; [|split; [|split]].
  - rewrite HB. unfold branch_taken.
    destruct (left_collision b), (right_collision b); split; congruence.
  - rewrite HB. unfold branch_taken.
    destruct (left_collision b), (right_collision b); split;
      intuition congruence.
  - rewrite HB. unfold branch_taken.
    destruct (left_collision b), (right_collision b); split;
      intuition congruence.
  - intros [EL ER]. rewrite HA. unfold resolve_collisions. rewrite EL.
    split; [reflexivity|]. split.
    + rewrite frame_after_collisions. through g_ball_movement.
      rewrite vertical_bounce_movement_x, HA.
      unfold resolve_collisions. rewrite EL.
      rewrite left_paddle_branch_movement. reflexivity.
    + rewrite frame_speed, HB. unfold branch_taken. rewrite EL.
      reflexivity.
Qed.

(** ** Ball position, vertical bounce and termination *)

Lemma handle_event_status_sticky g e :
  g_app_status g = TERMINATED -> g_app_status (handle_event g e) = TERMINATED.
Proof. intro H. unfold handle_event. break_ifs; auto. Qed.

Lemma process_input_status_sticky evs ks g :
  g_app_status g = TERMINATED ->
  g_app_status (process_input evs ks g) = TERMINATED.
Proof.
  unfold process_input.
  rewrite (read_keys_preserves g_app_status) by (intros; reflexivity).
  revert g. induction evs as [|e evs IH]; intros g H; simpl.
  - exact H.
  - apply IH, handle_event_status_sticky, H.
Qed.

Lemma termination_status g :
  g_app_status (termination g)
  = if Qle_bool 5 (vx (g_ball_position g))
       || Qle_bool (vx (g_ball_position g)) (-5)
    then TERMINATED else g_app_status g.
Proof. unfold termination. break_ifs; reflexivity. Qed.

Lemma update_status_sticky t g :
  g_app_status g = TERMINATED -> g_app_status (update t g) = TERMINATED.
Proof.
  intro H. unfold update. rewrite termination_status.
  through g_app_status. rewrite H. break_ifs; reflexivity.
Qed.

(** The ball's position at the end of a frame is the integrated one. *)
Lemma frame_ball_position f g :
  g_ball_position (frame f g)
  = vadd (g_ball_position g)
      (vscale (vscale (g_ball_movement (after_input f g)) (g_ball_speed g))
              (delta_time_at (sdl_ticks f) g)).
Proof.
  unfold frame, update. through g_ball_position. unfold before_collisions.
  rewrite (distance_calculations_preserves g_ball_position)
    by (intros; reflexivity).
  rewrite integrate_ball_position. norm. fold (after_input f g).
  unfold after_input at 1 3 4.
  rewrite (process_input_preserves g_ball_position),
    (process_input_preserves g_ball_speed),
    (process_input_preserves g_previous_ticks) by (intros; reflexivity).
  reflexivity.
Qed.

Lemma after_collisions_ball_position f g :
  g_ball_position (after_collisions f g) = g_ball_position (frame f g).
Proof.
  rewrite frame_after_collisions. through g_ball_position. reflexivity.
Qed.

Lemma at_tests_ball_position f g :
  g_ball_position (at_tests f g) = g_ball_position (frame f g).
Proof.
  rewrite <- after_collisions_ball_position. unfold after_collisions.
  through g_ball_position. reflexivity.
Qed.

(** C6. A frame in which the integrated x-position of the ball lies
    outside [[-5, 5]] ends TERMINATED, whatever the rest of the state; the
    status test on a ball with [x = 5.2] gives TERMINATED; and a frame run
    on a TERMINATED state leaves it TERMINATED, as the loop does. *)
Theorem termination_on_exit (f : FrameInput) (g : Globals) :
  let x := vx (g_ball_position (at_tests f g)) in
  x = vx (g_ball_position g)
      + vx (g_ball_movement (after_input f g)) * g_ball_speed g
        * delta_time_at (sdl_ticks f) g
  /\ (5 < x \/ x < -5 -> g_app_status (frame f g) = TERMINATED)
  /\ (forall g', vx (g_ball_position g') == 5.2 ->
                 g_app_status (termination g') = TERMINATED)
  /\ (g_app_status g = TERMINATED ->
      g_app_status (frame f g) = TERMINATED
      /\ forall fs, g_app_status (main_loop fs g) = TERMINATED).
Proof.
  intro x. subst x. rewrite at_tests_ball_position.
  split; [rewrite frame_ball_position; reflexivity|].
  split; [|split].
  - intro H. rewrite frame_after_collisions, termination_status.
    rewrite (vertical_bounce_preserves g_ball_position) by (intros; reflexivity).
    rewrite after_collisions_ball_position.
    destruct H as [H | H].
    + assert (E : Qle_bool 5 (vx (g_ball_position (frame f g))) = true)
        by (apply Qle_bool_iff; lra).
      rewrite E. reflexivity.
    + assert (E : Qle_bool (vx (g_ball_position (frame f g))) (-5) = true)
        by (apply Qle_bool_iff; lra).
      rewrite E, orb_true_r. reflexivity.
  - intros g' H. rewrite termination_status.
    assert (E : Qle_bool 5 (vx (g_ball_position g')) = true)
      by (apply Qle_bool_iff; rewrite H; discriminate).
    rewrite E. reflexivity.
  - intro H. split.
    + unfold frame. apply update_status_sticky, process_input_status_sticky, H.
    + intros [|f' fs]; simpl; [exact H | rewrite H; exact H].
Qed.

(** ** The right paddle *)

(** Where a frame puts the right paddle: along its movement vector when
    [right_paddle_swtich == -1], one step towards the ball otherwise. *)
Lemma frame_right_paddle_position f g :
  g_right_paddle_position (frame f g)
  = if (right_paddle_swtich (after_input f g) =? -1)%Z then
      vadd (g_right_paddle_position g)
        (vscale (vscale (g_right_paddle_movement (after_input f g))
                        (g_paddle_speed g))
                (delta_time_at (sdl_ticks f) g))
    else if Qlt_bool (vy (g_ball_position (frame f g)))
                     (vy (g_right_paddle_position g)) then
      vadd (g_right_paddle_position g)
        (vscale (vscale (mkvec3 0 (-1) 0) (g_paddle_speed g))
                (delta_time_at (sdl_ticks f) g))
    else if Qlt_bool (vy (g_right_paddle_position g))
                     (vy (g_ball_position (frame f g))) then
      vadd (g_right_paddle_position g)
        (vscale (vscale (mkvec3 0 1 0) (g_paddle_speed g))
                (delta_time_at (sdl_ticks f) g))
    else g_right_paddle_position g.
Proof.
  rewrite <- at_tests_ball_position.
  unfold frame, update, at_tests. through g_right_paddle_position.
  unfold before_collisions.
  rewrite (distance_calculations_preserves g_right_paddle_position),
    (distance_calculations_preserves g_ball_position) by (intros; reflexivity).
  rewrite integrate_right_paddle_position. norm.
  unfold after_input, delta_time_at.
  rewrite (process_input_preserves g_right_paddle_position),
    (process_input_preserves g_paddle_speed),
    (process_input_preserves g_previous_ticks) by (intros; reflexivity).
  reflexivity.
Qed.

Lemma frame_ball_y f g :
  vy (g_ball_position (frame f g))
  = vy (g_ball_position g)
    + vy (g_ball_movement g) * g_ball_speed g * delta_time_at (sdl_ticks f) g.
Proof.
  rewrite frame_ball_position. cbn [vadd vscale vy].
  rewrite after_input_movement_y. reflexivity.
Qed.

(** C8. In a frame whose [update] runs with [right_paddle_swtich] other
    than -1, the right paddle goes from its position by
    [(0, -1, 0) * g_paddle_speed * delta_time] when the ball's integrated y
    is below the paddle's y and by [(0, 1, 0) * g_paddle_speed * delta_time]
    when it is above, and stays when they are equal.  With the ball's y at
    [2.0] in that comparison and the paddle's y at 0 the paddle moves up by
    [g_paddle_speed * delta_time]; so it does when the ball starts the
    frame at [2.0] and its own displacement in the frame is above -2. *)
Theorem ai_tracking (f : FrameInput) (g : Globals) :
  let dt := delta_time_at (sdl_ticks f) g in
  let b_y := vy (g_ball_position (frame f g)) in
  let p_y := vy (g_right_paddle_position g) in
  right_paddle_swtich (after_input f g) <> (-1)%Z ->
  (b_y < p_y ->
   g_right_paddle_position (frame f g)
   = vadd (g_right_paddle_position g)
       (vscale (vscale (mkvec3 0 (-1) 0) (g_paddle_speed g)) dt)
   /\ vy (g_right_paddle_position (frame f g)) == p_y - g_paddle_speed g * dt)
  /\ (p_y < b_y ->
      g_right_paddle_position (frame f g)
      = vadd (g_right_paddle_position g)
          (vscale (vscale (mkvec3 0 1 0) (g_paddle_speed g)) dt)
      /\ vy (g_right_paddle_position (frame f g))
         == p_y + g_paddle_speed g * dt)
  /\ (b_y == p_y ->
      g_right_paddle_position (frame f g) = g_right_paddle_position g)
  /\ (b_y == 2.0 -> p_y == 0 ->
      vy (g_right_paddle_position (frame f g)) == 0 + 1 * g_paddle_speed g * dt)
  /\ (vy (g_ball_position g) == 2.0 -> p_y == 0 ->
      -2 < vy (g_ball_movement g) * g_ball_speed g * dt ->
      vy (g_right_paddle_position (frame f g)) == 0 + 1 * g_paddle_speed g * dt).
Proof.
  intros dt b_y p_y AI.
  assert (E : (right_paddle_swtich (after_input f g) =? -1)%Z = false)
    by (apply Z.eqb_neq; exact AI).
  assert (Up : p_y < b_y ->
               g_right_paddle_position (frame f g)
               = vadd (g_right_paddle_position g)
                   (vscale (vscale (mkvec3 0 1 0) (g_paddle_speed g)) dt)).
  { intro H. rewrite frame_right_paddle_position, E.
    fold b_y p_y dt.
    assert (E1 : Qlt_bool b_y p_y = false)
      by (apply Qlt_bool_false_iff; lra).
    assert (E2 : Qlt_bool p_y b_y = true) by (apply Qlt_bool_iff; exact H).
    rewrite E1, E2. reflexivity. }
  assert (UpY : p_y == 0 -> p_y < b_y ->
                vy (g_right_paddle_position (frame f g))
                == 0 + 1 * g_paddle_speed g * dt).
  { intros Hp H. rewrite (Up H). cbn [vadd vscale vy]. fold p_y.
    rewrite Hp. ring. }
  split; [|split; [|split; [|split]]].
  - intro H. rewrite frame_right_paddle_position, E. fold b_y p_y dt.
    assert (E1 : Qlt_bool b_y p_y = true) by (apply Qlt_bool_iff; exact H).
    rewrite E1. split; [reflexivity|].
    cbn [vadd vscale vy]. fold p_y. ring.
  - intro H. split; [exact (Up H)|].
    rewrite (Up H). cbn [vadd vscale vy]. fold p_y. ring.
  - intro H. rewrite frame_right_paddle_position, E. fold b_y p_y dt.
    assert (E1 : Qlt_bool b_y p_y = false)
      by (apply Qlt_bool_false_iff; lra).
    assert (E2 : Qlt_bool p_y b_y = false)
      by (apply Qlt_bool_false_iff; lra).
    rewrite E1, E2. reflexivity.
  - intros Hb Hp. apply (UpY Hp). rewrite Hb, Hp. reflexivity.
  - intros Hb Hp Hd. apply (UpY Hp). subst b_y.
    rewrite frame_ball_y. fold dt. lra.
Qed.

Lemma after_collisions_movement_y f g :
  vy (g_ball_movement (after_collisions f g))
  = match frame_branch f g with
    | LeftPaddleBranch =>
        let m := vy (g_paddle_movement (after_input f g)) in
        if Qeq_bool m 0 then vy (g_ball_movement g) else m
    | RightPaddleBranch =>
        let m := vy (g_right_paddle_movement (after_input f g)) in
        if Qeq_bool m 0 then vy (g_ball_movement g) else m
    | NoBranch => vy (g_ball_movement g)
    end.
Proof.
  unfold after_collisions. rewrite branch_taken_resolve.
  unfold frame_branch. destruct (branch_taken (at_tests f g)); cbv zeta.
  - rewrite left_paddle_branch_movement. cbn [vy].
    rewrite at_tests_paddle_movement, at_tests_ball_movement.
    rewrite sign_of_unit by apply after_input_unit.
    rewrite after_input_movement_y. reflexivity.
  - rewrite right_paddle_branch_movement. cbn [vy].
    rewrite at_tests_right_paddle_movement, at_tests_ball_movement.
    rewrite sign_of_unit by apply after_input_right_unit.
    rewrite after_input_movement_y. reflexivity.
  - rewrite at_tests_ball_movement. apply after_input_movement_y.
Qed.

Lemma frame_right_paddle_movement f g :
  g_right_paddle_movement (frame f g)
  = g_right_paddle_movement (after_input f g).
Proof.
  unfold frame, update, after_input. through g_right_paddle_movement.
  reflexivity.
Qed.

(** C10. In a frame whose [update] runs with [right_paddle_swtich] other
    than -1 and takes the right-paddle branch, the ball's y-direction is
    set from [g_right_paddle_movement], which [process_input] computed from
    the UP and DOWN keys and which the tracking of the paddle does not
    write: it becomes that component when not 0 and stays as it was
    otherwise, so with neither key held it stays, while the paddle itself
    goes one step towards the ball whenever their y differ. *)
Theorem ai_collision_reads_key_movement (f : FrameInput) (g : Globals) :
  let m_r := vy (g_right_paddle_movement (after_input f g)) in
  let b_y := vy (g_ball_position (frame f g)) in
  let p_y := vy (g_right_paddle_position g) in
  right_paddle_swtich (after_input f g) <> (-1)%Z ->
  frame_branch f g = RightPaddleBranch ->
  m_r = (if key_state f SDL_SCANCODE_DOWN
         then if Qle_bool 6.3 (paddle_right_y_distance g) then 0 else -1
         else if key_state f SDL_SCANCODE_UP
              then if Qle_bool (paddle_right_y_distance g) 0 then 0 else 1
              else 0)
  /\ g_right_paddle_movement (frame f g)
     = g_right_paddle_movement (after_input f g)
  /\ vy (g_ball_movement (after_collisions f g))
     = (if Qeq_bool m_r 0 then vy (g_ball_movement g) else m_r)
  /\ (key_state f SDL_SCANCODE_UP = false ->
      key_state f SDL_SCANCODE_DOWN = false ->
      vy (g_ball_movement (after_collisions f g)) = vy (g_ball_movement g))
  /\ g_right_paddle_position (frame f g)
     = (if Qlt_bool b_y p_y then
          vadd (g_right_paddle_position g)
            (vscale (vscale (mkvec3 0 (-1) 0) (g_paddle_speed g))
                    (delta_time_at (sdl_ticks f) g))
        else if Qlt_bool p_y b_y then
          vadd (g_right_paddle_position g)
            (vscale (vscale (mkvec3 0 1 0) (g_paddle_speed g))
                    (delta_time_at (sdl_ticks f) g))
        else g_right_paddle_position g).
Proof.
  intros m_r b_y p_y AI HB.
  assert (Hm : m_r = (if key_state f SDL_SCANCODE_DOWN
         then if Qle_bool 6.3 (paddle_right_y_distance g) then 0 else -1
         else if key_state f SDL_SCANCODE_UP
              then if Qle_bool (paddle_right_y_distance g) 0 then 0 else 1
              else 0)).
  { subst m_r. unfold after_input.
    rewrite process_input_right_paddle_movement. reflexivity. }
  assert (Hy : vy (g_ball_movement (after_collisions f g))
     = (if Qeq_bool m_r 0 then vy (g_ball_movement g) else m_r)).
  { rewrite after_collisions_movement_y, HB. reflexivity. }
  split; [exact Hm|]. split; [apply frame_right_paddle_movement|].
  split; [exact Hy|]. split.
  - intros HU HD. rewrite Hy, Hm, HU, HD. reflexivity.
  - rewrite frame_right_paddle_position.
    apply Z.eqb_neq in AI. rewrite AI. reflexivity.
Qed.

Lemma vertical_bounce_movement_y g :
  vy (g_ball_movement (vertical_bounce g))
  = if Qle_bool 3.5 (vy (g_ball_position g))
       || Qle_bool (vy (g_ball_position g)) (-3.5)
    then vy (g_ball_movement g) * -1
    else vy (g_ball_movement g).
Proof. unfold vertical_bounce. break_ifs; reflexivity. Qed.

Lemma frame_movement_y f g :
  vy (g_ball_movement (frame f g))
  = if Qle_bool 3.5 (vy (g_ball_position (frame f g)))
       || Qle_bool (vy (g_ball_position (frame f g))) (-3.5)
    then vy (g_ball_movement (after_collisions f g)) * -1
    else vy (g_ball_movement (after_collisions f g)).
Proof.
  rewrite <- after_collisions_ball_position.
  rewrite frame_after_collisions. through g_ball_movement.
  apply vertical_bounce_movement_y.
Qed.

(** The y-direction a branch leaves when the paddle's movement is 0 or 1
    and the ball was going up. *)
Lemma up_axis (m y : Q) :
  m = 0 \/ m = 1 -> y == 1 -> (if Qeq_bool m 0 then y else m) == 1.
Proof. intros [-> | ->] H; cbn; [exact H | reflexivity]. Qed.

(** The y-direction at the end of a frame that reaches the upper bound,
    from the movement [m] of the paddle hit and a ball going up. *)
Lemma negated_axis (m y : Q) :
  m = -1 \/ m = 0 \/ m = 1 -> y == 1 ->
  (m = -1 -> (if Qeq_bool m 0 then y else m) * -1 == 1)
  /\ (m <> -1 -> (if Qeq_bool m 0 then y else m) * -1 == -1).
Proof.
  intros [-> | [-> | ->]] H; cbn; split; intro E;
    try discriminate E; try (exfalso; apply E; reflexivity);
    try (cbn; rewrite H); reflexivity.
Qed.

(** C5, as amended.  In a frame where the ball's integrated y is [>= 3.5]
    or [<= -3.5], line 304 negates the y-direction that lines 276-301 left,
    and the ball keeps its integrated position, beyond the bound or not.
    A ball at [y = 3.6] with y-direction 1 at that test has y-direction -1
    at the end of the frame.  A ball that starts the frame so, with
    [delta_time] and the speed not negative, ends it with y-direction -1
    unless the branch taken in the frame is that of a paddle whose movement
    is -1, and then ends it with y-direction 1; in particular it ends with
    -1 when neither S nor DOWN is held. *)
Theorem vertical_bounce_inverts (f : FrameInput) (g : Globals) :
  let c := after_collisions f g in
  (3.5 <= vy (g_ball_position c) \/ vy (g_ball_position c) <= -3.5 ->
   vy (g_ball_movement (frame f g)) = vy (g_ball_movement c) * -1
   /\ g_ball_position (frame f g) = g_ball_position c
   /\ g_ball_position c
      = vadd (g_ball_position g)
          (vscale (vscale (g_ball_movement (after_input f g)) (g_ball_speed g))
                  (delta_time_at (sdl_ticks f) g)))
  /\ (vy (g_ball_position c) == 3.6 -> vy (g_ball_movement c) == 1 ->
      vy (g_ball_movement (frame f g)) == -1)
  /\ (vy (g_ball_position g) == 3.6 -> vy (g_ball_movement g) == 1 ->
      0 <= delta_time_at (sdl_ticks f) g -> 0 <= g_ball_speed g ->
      key_state f SDL_SCANCODE_S = false ->
      key_state f SDL_SCANCODE_DOWN = false ->
      vy (g_ball_movement (frame f g)) == -1)
  /\ (vy (g_ball_position g) == 3.6 -> vy (g_ball_movement g) == 1 ->
      0 <= delta_time_at (sdl_ticks f) g -> 0 <= g_ball_speed g ->
      let hit_down :=
        (frame_branch f g = LeftPaddleBranch
         /\ vy (g_paddle_movement (after_input f g)) = -1)
        \/ (frame_branch f g = RightPaddleBranch
            /\ vy (g_right_paddle_movement (after_input f g)) = -1) in
      (~ hit_down -> vy (g_ball_movement (frame f g)) == -1)
      /\ (hit_down -> vy (g_ball_movement (frame f g)) == 1)).
Proof.
  intro c. subst c. rewrite after_collisions_ball_position.
  assert (Inv : 3.5 <= vy (g_ball_position (frame f g))
                \/ vy (g_ball_position (frame f g)) <= -3.5 ->
                vy (g_ball_movement (frame f g))
                = vy (g_ball_movement (after_collisions f g)) * -1).
  { intro H. rewrite frame_movement_y.
    destruct H as [H | H]; apply Qle_bool_iff in H; rewrite H;
      rewrite ?orb_true_r; reflexivity. }
  split; [|split; [|split]].
  - intro H. split; [exact (Inv H)|]. split; [reflexivity|].
    apply frame_ball_position.
  - intros Hy Hm. rewrite Inv by (left; rewrite Hy; discriminate).
    rewrite Hm. reflexivity.
  - intros Hy Hm Hdt Hs HS HD.
    assert (Hpos : 3.5 <= vy (g_ball_position (frame f g))).
    { rewrite frame_ball_y, Hy, Hm.
      pose proof (Qmult_le_0_compat _ _ Hs Hdt). lra. }
    rewrite (Inv (or_introl Hpos)).
    assert (HX : vy (g_ball_movement (after_collisions f g)) == 1).
    { rewrite after_collisions_movement_y. unfold after_input.
      rewrite process_input_paddle_movement,
        process_input_right_paddle_movement.
      cbn [vy]. rewrite HS, HD.
      destruct (frame_branch f g); cbv zeta; [| |exact Hm];
        (apply up_axis; [|exact Hm]).
      - destruct (key_state f SDL_SCANCODE_W);
          [destruct (Qle_bool (paddle_y_distance g) 0)|]; auto.
      - destruct (key_state f SDL_SCANCODE_UP);
          [destruct (Qle_bool (paddle_right_y_distance g) 0)|]; auto. }
    rewrite HX. reflexivity.
  - intros Hy Hm Hdt Hs. cbv zeta.
    assert (Hpos : 3.5 <= vy (g_ball_position (frame f g))).
    { rewrite frame_ball_y, Hy, Hm.
      pose proof (Qmult_le_0_compat _ _ Hs Hdt). lra. }
    rewrite (Inv (or_introl Hpos)), after_collisions_movement_y.
    pose proof (after_input_unit f g) as UL. cbv zeta in UL.
    pose proof (after_input_right_unit f g) as UR. cbv zeta in UR.
    destruct (frame_branch f g); cbv zeta.
    + destruct (negated_axis _ _ UL Hm) as [A1 A2]. split.
      * intro N. apply A2. intro E. apply N. left. split; [reflexivity|exact E].
      * intros [[_ E] | [B _]]; [apply A1, E | discriminate B].
    + destruct (negated_axis _ _ UR Hm) as [A1 A2]. split.
      * intro N. apply A2. intro E. apply N. right.
        split; [reflexivity|exact E].
      * intros [[B _] | [_ E]]; [discriminate B | apply A1, E].
    + split.
      * intros _. rewrite Hm. reflexivity.
      * intros [[B _] | [B _]]; discriminate B.
Qed.

(** ** The left paddle's horizontal gap *)

Lemma at_tests_gaps f g :
  let b := at_tests f g in
  paddle_ball_x_distance b
  = Qabs (vx (g_ball_position b) - vx (g_paddle_position b))
    - (vx INIT_BALL_SCALE + vx INIT_PLAYER_1_SCALE) / 2
  /\ paddle_ball_y_distance b
     = Qabs (vy (g_ball_position b) - vy (g_paddle_position b))
       - (vy INIT_BALL_SCALE + vy INIT_PLAYER_1_SCALE) / 2.
Proof.
  cbv zeta. unfold at_tests, before_collisions. cbv zeta.
  generalize (integrate
                (inject_Z (sdl_ticks f) / MILLISECONDS_IN_SECOND
                 - g_previous_ticks (after_input f g))
                (set_g_previous_ticks
                   (inject_Z (sdl_ticks f) / MILLISECONDS_IN_SECOND)
                   (after_input f g))).
  intro h. unfold distance_calculations. norm. split; reflexivity.
Qed.

(** The arithmetic of the two left gaps around a paddle at [(-4, 0)]. *)
Lemma gap_threshold (x px py b_y gx gy : Q) :
  gx = Qabs (x - px) - (vx INIT_BALL_SCALE + vx INIT_PLAYER_1_SCALE) / 2 ->
  gy = Qabs (b_y - py) - (vy INIT_BALL_SCALE + vy INIT_PLAYER_1_SCALE) / 2 ->
  px == -4 -> py == 0 -> b_y == 0 ->
  gx == Qabs (x + 4) - 0.525
  /\ (gx <= 0 /\ gy <= 0 <-> -4.525 <= x <= -3.475)
  /\ (x == -3.65 -> gx == -0.175)
  /\ (x == -3.6 -> gx == -0.125)
  /\ (x == -3.4 -> gx == 0.075).
Proof.
  intros Gx Gy Hpx Hpy Hby.
  assert (Ex : gx == Qabs (x + 4) - 0.525).
  { rewrite Gx.
    assert (E : Qabs (x - px) == Qabs (x + 4))
      by (apply Qabs_wd; rewrite Hpx; ring).
    rewrite E.
    assert (C : (vx INIT_BALL_SCALE + vx INIT_PLAYER_1_SCALE) / 2 == 0.525)
      by reflexivity.
    rewrite C. reflexivity. }
  assert (Ey : gy <= 0).
  { rewrite Gy.
    assert (E : Qabs (b_y - py) == Qabs 0)
      by (apply Qabs_wd; rewrite Hpy, Hby; ring).
    rewrite E.
    assert (C : (vy INIT_BALL_SCALE + vy INIT_PLAYER_1_SCALE) / 2 == 0.725)
      by reflexivity.
    rewrite C. discriminate. }
  split; [exact Ex|]. split; [|split; [|split]].
  - rewrite Ex.
    assert (A : Qabs (x + 4) - 0.525 <= 0 <-> Qabs (x + 4) <= 0.525)
      by (split; intro; lra).
    rewrite (Qabs_Qle_condition (x + 4) 0.525) in A.
    split.
    + intros [H _]. apply A in H. lra.
    + intro H. split; [apply A; lra | exact Ey].
  - intro Hx. rewrite Ex.
    assert (E : Qabs (x + 4) == Qabs 0.35)
      by (apply Qabs_wd; rewrite Hx; reflexivity).
    rewrite E. reflexivity.
  - intro Hx. rewrite Ex.
    assert (E : Qabs (x + 4) == Qabs 0.4)
      by (apply Qabs_wd; rewrite Hx; reflexivity).
    rewrite E. reflexivity.
  - intro Hx. rewrite Ex.
    assert (E : Qabs (x + 4) == Qabs 0.6)
      by (apply Qabs_wd; rewrite Hx; reflexivity).
    rewrite E. reflexivity.
Qed.

Lemma frame_branch_unfold f g :
  frame_branch f g = branch_taken (at_tests f g).
Proof. unfold frame_branch. reflexivity. Qed.

(** What taking the left branch does to the frame's result. *)
Lemma left_branch_fires f g :
  frame_branch f g = LeftPaddleBranch ->
  vx (g_ball_movement (frame f g)) = 1
  /\ g_ball_speed (frame f g) = g_ball_speed g * 1.015.
Proof.
  intro H. rewrite frame_speed, H. split; [|reflexivity].
  rewrite frame_after_collisions. through g_ball_movement.
  rewrite vertical_bounce_movement_x.
  unfold after_collisions. rewrite branch_taken_resolve.
  rewrite <- frame_branch_unfold, H.
  rewrite left_paddle_branch_movement. reflexivity.
Qed.

Lemma frame_branch_left_iff f g :
  frame_branch f g = LeftPaddleBranch
  <-> paddle_ball_x_distance (at_tests f g) <= 0
      /\ paddle_ball_y_distance (at_tests f g) <= 0.
Proof.
  rewrite <- left_collision_iff. unfold frame_branch, branch_taken.
  destruct (left_collision (at_tests f g));
    [|destruct (right_collision (at_tests f g))]; split; congruence.
Qed.

(** C3, as amended.  With the left paddle at [(-4, 0)] and the ball at
    [(x, 0)] when the tests are evaluated, the horizontal gap is
    [|x + 4| - (0.25 + 0.8) / 2 = |x + 4| - 0.525] and the left branch is
    taken exactly when [-4.525 <= x <= -3.475].  At [x = -3.65] the gap is
    [-0.175] and at [x = -3.6] it is [-0.125]: in both the collision fires,
    the x-direction becomes 1 and the speed is multiplied by 1.015.  At
    [x = -3.4] the gap is [0.075] and the left branch is not taken. *)
Theorem left_collision_threshold (f : FrameInput) (g : Globals) :
  let b := at_tests f g in
  let x := vx (g_ball_position b) in
  let fires :=
    frame_branch f g = LeftPaddleBranch
    /\ vx (g_ball_movement (frame f g)) = 1
    /\ g_ball_speed (frame f g) = g_ball_speed g * 1.015 in
  vx (g_paddle_position b) == -4 ->
  vy (g_paddle_position b) == 0 ->
  vy (g_ball_position b) == 0 ->
  paddle_ball_x_distance b == Qabs (x + 4) - 0.525
  /\ (frame_branch f g = LeftPaddleBranch <-> -4.525 <= x <= -3.475)
  /\ (x == -3.65 -> paddle_ball_x_distance b == -0.175 /\ fires)
  /\ (x == -3.6 -> paddle_ball_x_distance b == -0.125 /\ fires)
  /\ (x == -3.4 ->
      paddle_ball_x_distance b == 0.075
      /\ frame_branch f g <> LeftPaddleBranch).
Proof.
  cbv zeta. intros Hpx Hpy Hby.
  destruct (at_tests_gaps f g) as [Gx Gy]. cbv zeta in Gx, Gy.
  destruct (gap_threshold _ _ _ _ _ _ Gx Gy Hpx Hpy Hby)
    as (Ex & Iff & H1 & H2 & H3).
  rewrite <- frame_branch_left_iff in Iff.
  split; [exact Ex|]. split; [exact Iff|].
  split; [|split]; intro Hx.
  - split; [exact (H1 Hx)|].
    assert (B : frame_branch f g = LeftPaddleBranch) by (apply Iff; lra).
    split; [exact B | exact (left_branch_fires f g B)].
  - split; [exact (H2 Hx)|].
    assert (B : frame_branch f g = LeftPaddleBranch) by (apply Iff; lra).
    split; [exact B | exact (left_branch_fires f g B)].
  - split; [exact (H3 Hx)|].
    intro B. apply Iff in B. lra.
Qed.

(** ** Which inputs matter *)

Lemma handle_event_unhandled g e : handled e = false -> handle_event g e = g.
Proof.
  unfold handled, quit_or_toggle, is_quit, is_keydown, handle_event.
  destruct (ev_type e =? SDL_QUIT)%Z, (ev_type e =? SDL_WINDOWEVENT_CLOSE)%Z,
    (ev_type e =? SDL_KEYDOWN)%Z, (ev_sym e =? SDLK_t)%Z,
    (ev_sym e =? SDLK_p)%Z; cbn [orb andb]; intro H;
    solve [discriminate H | reflexivity].
Qed.

Lemma fold_handle_event_filter evs : forall g,
  fold_left handle_event evs g = fold_left handle_event (filter handled evs) g.
Proof.
  induction evs as [|e evs IH]; intro g; [reflexivity|].
  cbn [filter fold_left]. destruct (handled e) eqn:E.
  - cbn [fold_left]. apply IH.
  - rewrite (handle_event_unhandled g e E). apply IH.
Qed.

Lemma read_keys_ext ks1 ks2 g :
  ks1 SDL_SCANCODE_W = ks2 SDL_SCANCODE_W ->
  ks1 SDL_SCANCODE_S = ks2 SDL_SCANCODE_S ->
  ks1 SDL_SCANCODE_UP = ks2 SDL_SCANCODE_UP ->
  ks1 SDL_SCANCODE_DOWN = ks2 SDL_SCANCODE_DOWN ->
  read_keys ks1 g = read_keys ks2 g.
Proof.
  intros H1 H2 H3 H4. unfold read_keys. rewrite H1, H2, H3, H4. reflexivity.
Qed.

(** C9, as amended.  Two frames run from the same globals give the same
    globals as soon as they agree on the four movement keys, on the
    sequence of quit requests and key-down events of [t] and of [p], and
    on the clock: no other key and no other event is consulted. *)
Theorem frame_reads_handled_inputs (f1 f2 : FrameInput) (g : Globals) :
  agree_on handled f1 f2 -> frame f1 g = frame f2 g.
Proof.
  intros ((HW & HS & HU & HD) & Hev & Ht).
  unfold frame, process_input.
  rewrite (fold_handle_event_filter (events f1)),
    (fold_handle_event_filter (events f2)), Hev, Ht.
  rewrite (read_keys_ext (key_state f1) (key_state f2) _ HW HS HU HD).
  reflexivity.
Qed.

(** * The statements on concrete frames *)

(** Closes a comparison or an equation between closed terms. *)
Ltac by_evaluation :=
  repeat split; vm_compute; solve [reflexivity | discriminate].

(** A run with one hit: the ball is served, travels one second and reaches
    the left paddle a quarter of a second later. *)
Example speed_after_first_hit :
  paddle_hits [serve_frame 1000; quiet_frame no_keys 1250] initial_globals = 1%nat
  /\ g_ball_speed (main_loop [serve_frame 1000; quiet_frame no_keys 1250]
                     initial_globals) == 3.045.
Proof. by_evaluation. Qed.

(** The left branch with the S key held and the right branch with the DOWN
    key held. *)
Lemma paddle_collision_effect_witness :
  vy (g_ball_movement
        (after_collisions (quiet_frame (only_key SDL_SCANCODE_S) 16) ball_at_3_65))
  = vy (g_paddle_movement
          (after_input (quiet_frame (only_key SDL_SCANCODE_S) 16) ball_at_3_65))
  /\ vx (g_ball_movement
           (frame (quiet_frame (only_key SDL_SCANCODE_DOWN) 16)
                  ball_at_right_paddle)) = -1.
Proof.
  split.
  - pose proof (paddle_collision_effect
                  (quiet_frame (only_key SDL_SCANCODE_S) 16) ball_at_3_65) as H.
    cbv zeta in H. destruct H as [H _].
    assert (L : paddle_ball_x_distance
                  (at_tests (quiet_frame (only_key SDL_SCANCODE_S) 16)
                            ball_at_3_65) <= 0
                /\ paddle_ball_y_distance
                     (at_tests (quiet_frame (only_key SDL_SCANCODE_S) 16)
                               ball_at_3_65) <= 0) by by_evaluation.
    destruct (H L) as (_ & _ & H3 & _). apply H3.
    vm_compute. discriminate.
  - pose proof (paddle_collision_effect
                  (quiet_frame (only_key SDL_SCANCODE_DOWN) 16)
                  ball_at_right_paddle) as H.
    cbv zeta in H. destruct H as [_ H].
    assert (NL : ~ (paddle_ball_x_distance
                      (at_tests (quiet_frame (only_key SDL_SCANCODE_DOWN) 16)
                                ball_at_right_paddle) <= 0
                    /\ paddle_ball_y_distance
                         (at_tests (quiet_frame (only_key SDL_SCANCODE_DOWN) 16)
                                   ball_at_right_paddle) <= 0)).
    { intros [A _]. vm_compute in A. apply A. reflexivity. }
    assert (R : right_paddle_ball_x_distance
                  (at_tests (quiet_frame (only_key SDL_SCANCODE_DOWN) 16)
                            ball_at_right_paddle) <= 0
                /\ right_paddle_ball_y_distance
                     (at_tests (quiet_frame (only_key SDL_SCANCODE_DOWN) 16)
                               ball_at_right_paddle) <= 0) by by_evaluation.
    destruct (H NL R) as (_ & _ & _ & _ & H5 & _). exact H5.
Defined.

(** C3, the claim as stated fails: with the left paddle at [(-4, 0)] and
    the ball at [(-3.65, 0)] when the tests are evaluated, the horizontal
    gap is [-0.175], not positive, and the frame takes the left branch:
    x-direction 1, speed [3 * 1.015]. *)
Lemma collision_fires_at_3_65 :
  vx (g_paddle_position (at_tests (quiet_frame no_keys 0) ball_at_3_65)) == -4
  /\ vy (g_paddle_position (at_tests (quiet_frame no_keys 0) ball_at_3_65)) == 0
  /\ vx (g_ball_position (at_tests (quiet_frame no_keys 0) ball_at_3_65))
     == -3.65
  /\ vy (g_ball_position (at_tests (quiet_frame no_keys 0) ball_at_3_65)) == 0
  /\ paddle_ball_x_distance (at_tests (quiet_frame no_keys 0) ball_at_3_65)
     == -0.175
  /\ ~ 0 < paddle_ball_x_distance (at_tests (quiet_frame no_keys 0) ball_at_3_65)
  /\ frame_branch (quiet_frame no_keys 0) ball_at_3_65 = LeftPaddleBranch
  /\ vx (g_ball_movement (frame (quiet_frame no_keys 0) ball_at_3_65)) = 1
  /\ g_ball_speed (frame (quiet_frame no_keys 0) ball_at_3_65) == 3 * 1.015.
Proof.
  do 5 (split; [by_evaluation|]).
  split; [intro H; vm_compute in H; discriminate H|]. by_evaluation.
Qed.

Lemma left_collision_threshold_witness :
  paddle_ball_x_distance (at_tests (quiet_frame no_keys 0) ball_at_3_65)
  == -0.175
  /\ frame_branch (quiet_frame no_keys 0) ball_at_3_65 = LeftPaddleBranch.
Proof.
  pose proof (left_collision_threshold (quiet_frame no_keys 0) ball_at_3_65)
    as H.
  cbv zeta in H.
  assert (H1 : vx (g_paddle_position
                     (at_tests (quiet_frame no_keys 0) ball_at_3_65)) == -4)
    by by_evaluation.
  assert (H2 : vy (g_paddle_position
                     (at_tests (quiet_frame no_keys 0) ball_at_3_65)) == 0)
    by by_evaluation.
  assert (H3 : vy (g_ball_position
                     (at_tests (quiet_frame no_keys 0) ball_at_3_65)) == 0)
    by by_evaluation.
  destruct (H H1 H2 H3) as (_ & _ & Hx & _).
  assert (X : vx (g_ball_position
                    (at_tests (quiet_frame no_keys 0) ball_at_3_65)) == -3.65)
    by by_evaluation.
  destruct (Hx X) as (G & B & _). split; [exact G | exact B].
Defined.

(** C4, the claim as stated fails: the opening frame, with the ball at the
    centre, takes neither branch, so it is not true that every frame takes
    one of them. *)
Lemma no_branch_in_opening_frame :
  frame_branch (quiet_frame no_keys 0) initial_globals = NoBranch
  /\ after_collisions (quiet_frame no_keys 0) initial_globals
     = at_tests (quiet_frame no_keys 0) initial_globals
  /\ ~ (forall f g, frame_branch f g = LeftPaddleBranch
                    \/ frame_branch f g = RightPaddleBranch).
Proof.
  assert (E : frame_branch (quiet_frame no_keys 0) initial_globals = NoBranch)
    by by_evaluation.
  split; [exact E|]. split.
  - unfold after_collisions. rewrite branch_taken_resolve.
    rewrite <- frame_branch_unfold, E. reflexivity.
  - intro H.
    destruct (H (quiet_frame no_keys 0) initial_globals) as [A | A];
      rewrite E in A; discriminate A.
Qed.

(** Both tests hold when the paddles overlap; only the left body runs. *)
Lemma at_most_one_branch_witness :
  right_collision (at_tests (quiet_frame no_keys 0) paddles_overlapping) = true
  /\ vx (g_ball_movement (frame (quiet_frame no_keys 0) paddles_overlapping)) = 1
  /\ g_ball_speed (frame (quiet_frame no_keys 0) paddles_overlapping)
     = g_ball_speed paddles_overlapping * 1.015.
Proof.
  split; [by_evaluation|].
  pose proof (at_most_one_branch (quiet_frame no_keys 0) paddles_overlapping)
    as H.
  cbv zeta in H. destruct H as (_ & _ & _ & _ & H).
  assert (LR : (paddle_ball_x_distance
                  (at_tests (quiet_frame no_keys 0) paddles_overlapping) <= 0
                /\ paddle_ball_y_distance
                     (at_tests (quiet_frame no_keys 0) paddles_overlapping) <= 0)
               /\ right_paddle_ball_x_distance
                    (at_tests (quiet_frame no_keys 0) paddles_overlapping) <= 0
               /\ right_paddle_ball_y_distance
                    (at_tests (quiet_frame no_keys 0) paddles_overlapping) <= 0)
    by by_evaluation.
  destruct (H LR) as (_ & H1 & H2). split; [exact H1 | exact H2].
Defined.

(** A ball that starts a frame at [y = 3.6] going up. *)
Lemma vertical_bounce_inverts_witness :
  vy (g_ball_movement (frame (quiet_frame no_keys 16) ball_at_top)) == -1.
Proof.
  pose proof (vertical_bounce_inverts (quiet_frame no_keys 16) ball_at_top)
    as H.
  cbv zeta in H. destruct H as (_ & _ & H & _).
  apply H; by_evaluation.
Defined.

(** C5, the claim as stated fails: a ball at [y = 3.6] going up that the
    descending left paddle hits in the frame is first sent down by the
    branch and then sent up again by line 304; it ends the frame with
    y-direction 1, above the bound. *)
Example bounce_after_downward_hit :
  vy (g_ball_position ball_at_top_left_corner) == 3.6
  /\ vy (g_ball_movement ball_at_top_left_corner) == 1
  /\ frame_branch (quiet_frame (only_key SDL_SCANCODE_S) 16)
                  ball_at_top_left_corner = LeftPaddleBranch
  /\ vy (g_ball_movement
           (after_collisions (quiet_frame (only_key SDL_SCANCODE_S) 16)
                             ball_at_top_left_corner)) == -1
  /\ vy (g_ball_movement
           (frame (quiet_frame (only_key SDL_SCANCODE_S) 16)
                  ball_at_top_left_corner)) == 1.
Proof. by_evaluation. Qed.

(** A ball that crosses [x = 5] in the frame. *)
Lemma termination_on_exit_witness :
  g_app_status (frame (quiet_frame no_keys 16) ball_leaving) = TERMINATED.
Proof.
  pose proof (termination_on_exit (quiet_frame no_keys 16) ball_leaving) as H.
  cbv zeta in H. destruct H as (_ & H & _).
  apply H. left. by_evaluation.
Defined.

(** In the opening frame the stored distance is the initialiser 0, so W
    alone gives no movement although the paddle is at [y = 0]. *)
Lemma paddle_movement_clamped_witness :
  vy (g_paddle_movement
        (after_input (quiet_frame (only_key SDL_SCANCODE_W) 16) initial_globals))
  = 0.
Proof.
  pose proof (paddle_movement_clamped
                (quiet_frame (only_key SDL_SCANCODE_W) 16) initial_globals) as H.
  cbv zeta in H. destruct H as (_ & _ & _ & _ & H & _).
  assert (D : paddle_y_distance initial_globals <= 0) by by_evaluation.
  destruct (H D) as [_ H']. apply H'. reflexivity.
Defined.

(** The stored distance, not the coming position, decides: a paddle at
    [y = 3.1] may still move up and ends the frame above 3.15. *)
Example paddle_overshoots_bound :
  let g := set_distances 0.05 3.15 0 0 0 0
             (set_g_paddle_position (mkvec3 (-4) 3.1 0) initial_globals) in
  let f := quiet_frame (only_key SDL_SCANCODE_W) 100 in
  vy (g_paddle_movement (after_input f g)) = 1
  /\ vy (g_paddle_position (frame f g)) == 3.4
  /\ paddle_y_distance (frame f g) == -0.25.
Proof. by_evaluation. Qed.

(** The mode is switched by [t] in the frame itself; ball at [y = 2.0],
    right paddle at [y = 0], 16 ms. *)
Lemma ai_tracking_witness :
  vy (g_right_paddle_position (frame (toggle_frame 16) ball_at_2))
  == 0 + 1 * g_paddle_speed ball_at_2
            * delta_time_at (sdl_ticks (toggle_frame 16)) ball_at_2.
Proof.
  pose proof (ai_tracking (toggle_frame 16) ball_at_2) as H.
  cbv zeta in H.
  assert (AI : right_paddle_swtich (after_input (toggle_frame 16) ball_at_2)
               <> (-1)%Z) by (vm_compute; discriminate).
  destruct (H AI) as (_ & _ & _ & H4 & _).
  apply H4; by_evaluation.
Defined.

(** C9, the claim as stated fails: two frames that agree on the movement
    keys, on quit requests and key-down events of [t], and on the clock,
    but of which one has a key-down event of [p], leave the ball going
    different ways and at different places. *)
Lemma p_key_changes_frame :
  agree_on quit_or_toggle (quiet_frame no_keys 1000) (serve_frame 1000)
  /\ vx (g_ball_movement (frame (quiet_frame no_keys 1000) initial_globals)) = 0
  /\ vx (g_ball_movement (frame (serve_frame 1000) initial_globals)) = -1
  /\ vx (g_ball_position (frame (quiet_frame no_keys 1000) initial_globals)) == 0
  /\ vx (g_ball_position (frame (serve_frame 1000) initial_globals)) == -3
  /\ ~ (forall f1 f2 g, agree_on quit_or_toggle f1 f2 -> frame f1 g = frame f2 g).
Proof.
  assert (A : agree_on quit_or_toggle (quiet_frame no_keys 1000)
                (serve_frame 1000)) by (repeat split; reflexivity).
  assert (M1 : vx (g_ball_movement
                     (frame (quiet_frame no_keys 1000) initial_globals)) = 0)
    by by_evaluation.
  assert (M2 : vx (g_ball_movement
                     (frame (serve_frame 1000) initial_globals)) = -1)
    by by_evaluation.
  split; [exact A|]. split; [exact M1|]. split; [exact M2|].
  split; [by_evaluation|]. split; [by_evaluation|].
  intro H. rewrite (H _ _ initial_globals A) in M1. rewrite M1 in M2.
  discriminate M2.
Qed.

(** An event and a held key that [process_input] does not look at. *)
Lemma frame_reads_handled_inputs_witness :
  frame (quiet_frame (only_key SDL_SCANCODE_W) 16) initial_globals
  = frame (noisy_frame 16) initial_globals.
Proof.
  apply frame_reads_handled_inputs. repeat split; reflexivity.
Defined.

(** The tracking paddle rises by 0.048 while the ball it hits keeps going
    down. *)
Lemma ai_collision_reads_key_movement_witness :
  vy (g_ball_movement (after_collisions (quiet_frame no_keys 16) tracking_ball_near))
  = vy (g_ball_movement tracking_ball_near)
  /\ vy (g_ball_movement tracking_ball_near) = -1
  /\ vy (g_right_paddle_position tracking_ball_near) == 0
  /\ vy (g_right_paddle_position (frame (quiet_frame no_keys 16) tracking_ball_near))
     == 0.048.
Proof.
  pose proof (ai_collision_reads_key_movement
                (quiet_frame no_keys 16) tracking_ball_near) as H.
  cbv zeta in H.
  assert (AI : right_paddle_swtich
                 (after_input (quiet_frame no_keys 16) tracking_ball_near)
               <> (-1)%Z) by (vm_compute; discriminate).
  assert (B : frame_branch (quiet_frame no_keys 16) tracking_ball_near
              = RightPaddleBranch) by by_evaluation.
  destruct (H AI B) as (_ & _ & _ & H4 & _).
  split; [apply H4; reflexivity|]. by_evaluation.
Defined.

(** * Further properties of the loop *)

(** ** Runs *)

Lemma main_loop_terminated fs g :
  g_app_status g = TERMINATED -> main_loop fs g = g.
Proof. intro H. destruct fs; cbn [main_loop]; [|rewrite H]; reflexivity. Qed.

(** A property kept by every frame run on a RUNNING state is kept by
    every run. *)
Lemma main_loop_invariant (P : Globals -> Prop) :
  (forall f g, g_app_status g = RUNNING -> P g -> P (frame f g)) ->
  forall fs g, P g -> P (main_loop fs g).
Proof.
  intros Step fs. induction fs as [|f fs IH]; intros g H; cbn [main_loop].
  - exact H.
  - destruct (g_app_status g) eqn:E; [|exact H].
    apply IH, Step; assumption.
Qed.

(** ** Quit requests *)

Lemma handle_event_quit g e :
  is_quit e = true -> g_app_status (handle_event g e) = TERMINATED.
Proof.
  unfold is_quit, handle_event. intro H. rewrite H. break_ifs; reflexivity.
Qed.

Lemma fold_handle_event_status_sticky evs : forall g,
  g_app_status g = TERMINATED ->
  g_app_status (fold_left handle_event evs g) = TERMINATED.
Proof.
  induction evs as [|e evs IH]; intros g H; cbn [fold_left].
  - exact H.
  - apply IH, handle_event_status_sticky, H.
Qed.

Lemma fold_handle_event_quit evs : forall g,
  quit_requested evs = true ->
  g_app_status (fold_left handle_event evs g) = TERMINATED.
Proof.
  unfold quit_requested.
  induction evs as [|e evs IH]; intros g H; cbn [fold_left existsb] in *.
  - discriminate H.
  - destruct (is_quit e) eqn:E.
    + apply fold_handle_event_status_sticky, handle_event_quit, E.
    + apply IH, H.
Qed.

(** X2. A frame whose events hold a quit request ends TERMINATED whatever
    else it holds; its [update] still runs, so the ball is where
    integration puts it; and the loop runs no frame after it. *)
Theorem quit_request_ends_run (f : FrameInput) (fs : list FrameInput)
    (g : Globals) :
  quit_requested (events f) = true ->
  g_app_status (frame f g) = TERMINATED
  /\ g_ball_position (frame f g)
     = vadd (g_ball_position g)
         (vscale (vscale (g_ball_movement (after_input f g)) (g_ball_speed g))
                 (delta_time_at (sdl_ticks f) g))
  /\ (g_app_status g = RUNNING -> main_loop (f :: fs) g = frame f g).
Proof.
  intro Q.
  assert (T : g_app_status (frame f g) = TERMINATED).
  { unfold frame. apply update_status_sticky. unfold process_input.
    rewrite (read_keys_preserves g_app_status) by (intros; reflexivity).
    apply fold_handle_event_quit, Q. }
  split; [exact T|]. split; [apply frame_ball_position|].
  intro R. cbn [main_loop]. rewrite R. apply main_loop_terminated, T.
Qed.

(** ** The mode switch *)

Lemma handle_event_switch g e :
  right_paddle_swtich (handle_event g e)
  = if is_keydown SDLK_t e then (right_paddle_swtich g * -1)%Z
    else right_paddle_swtich g.
Proof.
  unfold is_keydown, handle_event.
  destruct (ev_type e =? SDL_KEYDOWN)%Z, (ev_sym e =? SDLK_t)%Z;
    cbn [andb]; break_ifs; reflexivity.
Qed.

Lemma fold_handle_event_switch evs : forall g,
  right_paddle_swtich (fold_left handle_event evs g)
  = (right_paddle_swtich g * (-1) ^ Z.of_nat (toggles evs))%Z.
Proof.
  unfold toggles.
  induction evs as [|e evs IH]; intro g; cbn [fold_left filter].
  - cbn. lia.
  - rewrite IH, handle_event_switch. destruct (is_keydown SDLK_t e).
    + cbn [length]. rewrite Nat2Z.inj_succ, Z.pow_succ_r by lia. lia.
    + reflexivity.
Qed.

Lemma frame_switch f g :
  right_paddle_swtich (frame f g)
  = (right_paddle_swtich g * (-1) ^ Z.of_nat (toggles (events f)))%Z.
Proof.
  unfold frame, update. through right_paddle_swtich.
  unfold process_input.
  rewrite (read_keys_preserves right_paddle_swtich) by (intros; reflexivity).
  apply fold_handle_event_switch.
Qed.

Lemma minus_one_pow (n : nat) :
  ((-1) ^ Z.of_nat n = if Nat.even n then 1 else -1)%Z.
Proof.
  induction n as [|n IH]; [reflexivity|].
  rewrite Nat2Z.inj_succ, Z.pow_succ_r, IH, Nat.even_succ by lia.
  rewrite <- Nat.negb_even. destruct (Nat.even n); reflexivity.
Qed.

(** X3. A frame multiplies [right_paddle_swtich] by -1 once per key-down
    event of [t] it holds: an even number of them leaves the mode as it
    was, an odd number flips it, and nothing else in the frame writes it.
    In every run from the initial globals it is -1 or 1. *)
Theorem mode_switch_parity (f : FrameInput) (g : Globals) :
  right_paddle_swtich (frame f g)
  = (if Nat.even (toggles (events f)) then right_paddle_swtich g
     else right_paddle_swtich g * -1)%Z
  /\ forall fs,
       right_paddle_swtich (main_loop fs initial_globals) = (-1)%Z
       \/ right_paddle_swtich (main_loop fs initial_globals) = 1%Z.
Proof.
  assert (Step : forall f g,
             right_paddle_swtich (frame f g)
             = (if Nat.even (toggles (events f)) then right_paddle_swtich g
                else right_paddle_swtich g * -1)%Z).
  { intros f0 g0. rewrite frame_switch, minus_one_pow.
    destruct (Nat.even (toggles (events f0))); lia. }
  split; [apply Step|].
  intro fs.
  apply (main_loop_invariant
           (fun g => right_paddle_swtich g = (-1)%Z
                     \/ right_paddle_swtich g = 1%Z)).
  - intros f0 g0 _ H. rewrite Step.
    destruct (Nat.even (toggles (events f0))); lia.
  - left. reflexivity.
Qed.

(** ** Positions at the end of a frame *)

Lemma frame_paddle_position f g :
  g_paddle_position (frame f g)
  = vadd (g_paddle_position g)
      (vscale (vscale (g_paddle_movement (after_input f g)) (g_paddle_speed g))
              (delta_time_at (sdl_ticks f) g)).
Proof.
  unfold frame, update. through g_paddle_position.
  unfold before_collisions.
  rewrite (distance_calculations_preserves g_paddle_position)
    by (intros; reflexivity).
  rewrite integrate_paddle_position. norm. fold (after_input f g).
  unfold after_input at 1 3 4.
  rewrite (process_input_preserves g_paddle_position),
    (process_input_preserves g_paddle_speed),
    (process_input_preserves g_previous_ticks) by (intros; reflexivity).
  reflexivity.
Qed.

Lemma at_tests_paddle_position f g :
  g_paddle_position (at_tests f g) = g_paddle_position (frame f g).
Proof.
  rewrite frame_after_collisions. unfold after_collisions.
  through g_paddle_position. reflexivity.
Qed.

Lemma at_tests_right_paddle_position f g :
  g_right_paddle_position (at_tests f g) = g_right_paddle_position (frame f g).
Proof.
  rewrite frame_after_collisions. unfold after_collisions.
  through g_right_paddle_position. reflexivity.
Qed.

Lemma at_tests_right_gaps f g :
  let b := at_tests f g in
  right_paddle_ball_x_distance b
  = Qabs (vx (g_ball_position b) - vx (g_right_paddle_position b))
    - (vx INIT_BALL_SCALE + vx INIT_PLAYER_2_SCALE) / 2
  /\ right_paddle_ball_y_distance b
     = Qabs (vy (g_ball_position b) - vy (g_right_paddle_position b))
       - (vy INIT_BALL_SCALE + vy INIT_PLAYER_2_SCALE) / 2.
Proof.
  cbv zeta. unfold at_tests, before_collisions. cbv zeta.
  generalize (integrate
                (inject_Z (sdl_ticks f) / MILLISECONDS_IN_SECOND
                 - g_previous_ticks (after_input f g))
                (set_g_previous_ticks
                   (inject_Z (sdl_ticks f) / MILLISECONDS_IN_SECOND)
                   (after_input f g))).
  intro h. unfold distance_calculations. norm. split; reflexivity.
Qed.

(** The four gaps of a frame in terms of the positions it ends with. *)
Lemma frame_gaps f g :
  let b := at_tests f g in
  let e := frame f g in
  paddle_ball_x_distance b
  == Qabs (vx (g_ball_position e) - vx (g_paddle_position e)) - 0.525
  /\ paddle_ball_y_distance b
     == Qabs (vy (g_ball_position e) - vy (g_paddle_position e)) - 0.725
  /\ right_paddle_ball_x_distance b
     == Qabs (vx (g_ball_position e) - vx (g_right_paddle_position e)) - 0.625
  /\ right_paddle_ball_y_distance b
     == Qabs (vy (g_ball_position e) - vy (g_right_paddle_position e)) - 0.625.
Proof.
  cbv zeta.
  destruct (at_tests_gaps f g) as [G1 G2].
  destruct (at_tests_right_gaps f g) as [G3 G4].
  cbv zeta in G1, G2, G3, G4.
  rewrite G1, G2, G3, G4.
  rewrite at_tests_ball_position, at_tests_paddle_position,
    at_tests_right_paddle_position.
  assert (C1 : (vx INIT_BALL_SCALE + vx INIT_PLAYER_1_SCALE) / 2 == 0.525)
    by reflexivity.
  assert (C2 : (vy INIT_BALL_SCALE + vy INIT_PLAYER_1_SCALE) / 2 == 0.725)
    by reflexivity.
  assert (C3 : (vx INIT_BALL_SCALE + vx INIT_PLAYER_2_SCALE) / 2 == 0.625)
    by reflexivity.
  assert (C4 : (vy INIT_BALL_SCALE + vy INIT_PLAYER_2_SCALE) / 2 == 0.625)
    by reflexivity.
  rewrite C1, C2, C3, C4. repeat split; reflexivity.
Qed.

Lemma gap_le_0 (d c : Q) : d - c <= 0 <-> d <= c.
Proof. split; intro; lra. Qed.

(** ** The paddles' columns *)

Lemma after_input_paddle_movement f g :
  g_paddle_movement (after_input f g)
  = mkvec3 0
      (if key_state f SDL_SCANCODE_S
       then if Qle_bool 6.3 (paddle_y_distance g) then 0 else -1
       else if key_state f SDL_SCANCODE_W
            then if Qle_bool (paddle_y_distance g) 0 then 0 else 1
            else 0)
      0.
Proof. unfold after_input. apply process_input_paddle_movement. Qed.

Lemma after_input_right_paddle_movement f g :
  g_right_paddle_movement (after_input f g)
  = mkvec3 0
      (if key_state f SDL_SCANCODE_DOWN
       then if Qle_bool 6.3 (paddle_right_y_distance g) then 0 else -1
       else if key_state f SDL_SCANCODE_UP
            then if Qle_bool (paddle_right_y_distance g) 0 then 0 else 1
            else 0)
      0.
Proof. unfold after_input. apply process_input_right_paddle_movement. Qed.

Lemma frame_paddle_column f g :
  vx (g_paddle_position (frame f g)) == vx (g_paddle_position g)
  /\ vz (g_paddle_position (frame f g)) == vz (g_paddle_position g).
Proof.
  rewrite frame_paddle_position, after_input_paddle_movement.
  cbn [vadd vscale vx vz]. split; ring.
Qed.

Lemma frame_right_paddle_column f g :
  vx (g_right_paddle_position (frame f g)) == vx (g_right_paddle_position g)
  /\ vz (g_right_paddle_position (frame f g))
     == vz (g_right_paddle_position g).
Proof.
  rewrite frame_right_paddle_position, after_input_right_paddle_movement.
  destruct (right_paddle_swtich (after_input f g) =? -1)%Z;
    [|destruct (Qlt_bool _ _); [|destruct (Qlt_bool _ _)]];
    cbn [vadd vscale vx vz]; split; ring.
Qed.

Lemma frame_in_columns f g : in_columns g -> in_columns (frame f g).
Proof.
  intros (H1 & H2 & H3 & H4).
  destruct (frame_paddle_column f g) as [E1 E2].
  destruct (frame_right_paddle_column f g) as [E3 E4].
  unfold in_columns. rewrite E1, E2, E3, E4. repeat split; assumption.
Qed.

Lemma run_in_columns fs : in_columns (main_loop fs initial_globals).
Proof.
  apply main_loop_invariant.
  - intros f g _. apply frame_in_columns.
  - repeat split; reflexivity.
Qed.

(** X5. No frame moves a paddle sideways or in depth, with keys or by
    tracking: in every run from the initial globals the left paddle stays
    at [x = -4] and the right paddle at [x = 4], both at [z = 0]. *)
Theorem paddles_keep_columns (fs : list FrameInput) (f : FrameInput)
    (g : Globals) :
  (vx (g_paddle_position (frame f g)) == vx (g_paddle_position g)
   /\ vz (g_paddle_position (frame f g)) == vz (g_paddle_position g)
   /\ vx (g_right_paddle_position (frame f g))
      == vx (g_right_paddle_position g)
   /\ vz (g_right_paddle_position (frame f g))
      == vz (g_right_paddle_position g))
  /\ vx (g_paddle_position (main_loop fs initial_globals)) == -4
  /\ vz (g_paddle_position (main_loop fs initial_globals)) == 0
  /\ vx (g_right_paddle_position (main_loop fs initial_globals)) == 4
  /\ vz (g_right_paddle_position (main_loop fs initial_globals)) == 0.
Proof.
  destruct (frame_paddle_column f g) as [E1 E2].
  destruct (frame_right_paddle_column f g) as [E3 E4].
  split; [repeat split; assumption|]. apply (run_in_columns fs).
Qed.

(** X6. In a run from the initial globals the two collision tests never
    hold in the same frame: with the paddles at [x = -4] and [x = 4] the
    left horizontal gap needs the ball at [x <= -3.475] and the right one
    at [x >= 3.375].  The order of the two branches decides nothing
    there. *)
Theorem both_tests_unreachable (fs : list FrameInput) (f : FrameInput) :
  let g := main_loop fs initial_globals in
  ~ (paddle_ball_x_distance (at_tests f g) <= 0
     /\ right_paddle_ball_x_distance (at_tests f g) <= 0)
  /\ (left_collision (at_tests f g) && right_collision (at_tests f g) = false).
Proof.
  cbv zeta.
  assert (N : ~ (paddle_ball_x_distance
                   (at_tests f (main_loop fs initial_globals)) <= 0
                 /\ right_paddle_ball_x_distance
                      (at_tests f (main_loop fs initial_globals)) <= 0)).
  { destruct (frame_gaps f (main_loop fs initial_globals))
      as (G1 & _ & G3 & _).
    cbv zeta in G1, G3. rewrite G1, G3, !gap_le_0.
    destruct (frame_in_columns f _ (run_in_columns fs)) as (P1 & _ & P3 & _).
    revert P1 P3.
    generalize (vx (g_ball_position (frame f (main_loop fs initial_globals)))).
    generalize (vx (g_paddle_position
                      (frame f (main_loop fs initial_globals)))).
    generalize (vx (g_right_paddle_position
                      (frame f (main_loop fs initial_globals)))).
    intros rx px bx P1 P3 [A B].
    apply Qabs_Qle_condition in A. apply Qabs_Qle_condition in B. lra. }
  split; [exact N|].
  destruct (left_collision _) eqn:L; [|reflexivity].
  destruct (right_collision _) eqn:R; [|reflexivity].
  exfalso. apply N.
  apply left_collision_iff in L. apply right_collision_iff in R.
  split; [apply L | apply R].
Qed.

(** ** Time *)

(** X8. A frame whose clock has not advanced ([delta_time] 0) leaves the
    ball and both paddles where they were, whatever the keys, the events
    and the mode. *)
Theorem still_frame (f : FrameInput) (g : Globals) :
  delta_time_at (sdl_ticks f) g == 0 ->
  (vx (g_ball_position (frame f g)) == vx (g_ball_position g)
   /\ vy (g_ball_position (frame f g)) == vy (g_ball_position g)
   /\ vz (g_ball_position (frame f g)) == vz (g_ball_position g))
  /\ (vx (g_paddle_position (frame f g)) == vx (g_paddle_position g)
      /\ vy (g_paddle_position (frame f g)) == vy (g_paddle_position g)
      /\ vz (g_paddle_position (frame f g)) == vz (g_paddle_position g))
  /\ (vx (g_right_paddle_position (frame f g))
      == vx (g_right_paddle_position g)
      /\ vy (g_right_paddle_position (frame f g))
         == vy (g_right_paddle_position g)
      /\ vz (g_right_paddle_position (frame f g))
         == vz (g_right_paddle_position g)).
Proof.
  intro H. split; [|split].
  - rewrite frame_ball_position. cbn [vadd vscale vx vy vz].
    rewrite H. repeat split; ring.
  - rewrite frame_paddle_position. cbn [vadd vscale vx vy vz].
    rewrite H. repeat split; ring.
  - rewrite frame_right_paddle_position.
    destruct (right_paddle_swtich (after_input f g) =? -1)%Z;
      [|destruct (Qlt_bool _ _); [|destruct (Qlt_bool _ _)]];
      cbn [vadd vscale vx vy vz]; rewrite ?H; repeat split; ring.
Qed.

(** ** The bounds of a key-driven paddle *)

(** The travel of a paddle whose movement is [m], from [y]. *)
Lemma travel_cases (y m s dt : Q) :
  0 <= s -> 0 <= dt ->
  (m = -1 \/ m = 0 \/ m = 1) ->
  let y' := y + m * s * dt in
  y - s * dt <= y' <= y + s * dt
  /\ (m <= 0 -> y' <= y) /\ (0 <= m -> y <= y').
Proof.
  intros Hs Hdt Hm. cbv zeta.
  pose proof (Qmult_le_0_compat _ _ Hs Hdt) as P.
  assert (E : y + m * s * dt == y + m * (s * dt)) by ring.
  rewrite E. generalize dependent (s * dt). intros p P E.
  destruct Hm as [-> | [-> | ->]]; repeat split; intros; lra.
Qed.

(** X9. Take a frame that starts with [paddle_y_distance] equal to
    [3.15 - y] for the left paddle's [y], as every [update] leaves it, with
    [delta_time] and the paddle speed not negative.  The paddle ends
    within one frame's travel of [y]; from [y >= 3.15] it does not go up
    and from [y <= -3.15] it does not go down, whatever keys are held.  So
    it passes a bound by less than one frame's travel. *)
Theorem paddle_stops_at_bounds (f : FrameInput) (g : Globals) :
  let y := vy (g_paddle_position g) in
  let y' := vy (g_paddle_position (frame f g)) in
  let travel := g_paddle_speed g * delta_time_at (sdl_ticks f) g in
  paddle_y_distance g == 3.15 - y ->
  0 <= delta_time_at (sdl_ticks f) g ->
  0 <= g_paddle_speed g ->
  y - travel <= y' <= y + travel
  /\ (3.15 <= y -> y' <= y)
  /\ (y <= -3.15 -> y <= y')
  /\ (y < 3.15 -> y' < 3.15 + travel)
  /\ (-3.15 < y -> -3.15 - travel < y').
Proof.
  cbv zeta. intros D Hdt Hs.
  rewrite frame_paddle_position, after_input_paddle_movement.
  cbn [vadd vscale vy].
  set (m := if key_state f SDL_SCANCODE_S then _ else _).
  assert (Hm : m = -1 \/ m = 0 \/ m = 1) by (subst m; break_ifs; auto).
  assert (Up : 3.15 <= vy (g_paddle_position g) -> m <= 0).
  { intro H.
    assert (B : Qle_bool (paddle_y_distance g) 0 = true)
      by (apply Qle_bool_iff; rewrite D; lra).
    subst m. rewrite B. break_ifs; lra. }
  assert (Down : vy (g_paddle_position g) <= -3.15 -> 0 <= m).
  { intro H.
    assert (B : Qle_bool 6.3 (paddle_y_distance g) = true)
      by (apply Qle_bool_iff; rewrite D; lra).
    subst m. rewrite B. break_ifs; lra. }
  destruct (travel_cases (vy (g_paddle_position g)) m (g_paddle_speed g)
              (delta_time_at (sdl_ticks f) g) Hs Hdt Hm) as (T & T1 & T2).
  cbv zeta in T, T1, T2. clearbody m.
  split; [exact T|]. split; [|split; [|split]]; intro H.
  - apply T1, Up, H.
  - apply T2, Down, H.
  - lra.
  - lra.
Qed.

(** ** The tracking paddle and the ball *)

(** The distance left after a step [p >= 0] towards a target at signed
    distance [d]. *)
Lemma step_towards (d p : Q) :
  0 <= p ->
  (0 < d -> Qabs (d - p) == Qabs (Qabs d - p))
  /\ (d < 0 -> Qabs (d + p) == Qabs (Qabs d - p))
  /\ (Qabs (Qabs d - p) <= Qabs d - p \/ Qabs (Qabs d - p) <= p).
Proof.
  intros Hp. split; [|split].
  - intro H. apply Qabs_wd. rewrite (Qabs_pos d) by lra. reflexivity.
  - intro H. rewrite (Qabs_neg d) by lra.
    rewrite <- (Qabs_opp (d + p)). apply Qabs_wd. ring.
  - pose proof (Qabs_nonneg d) as N. revert N.
    generalize (Qabs d). intros a N.
    destruct (Qlt_le_dec a p) as [L | L].
    + right. rewrite Qabs_neg by lra. lra.
    + left. rewrite Qabs_pos by lra. lra.
Qed.

(** Lines 260-265 on the y-coordinates alone. *)
Lemma tracking_step (b_y p_y s dt y' : Q) :
  0 <= s * dt ->
  y' = (if Qlt_bool b_y p_y then p_y + -1 * s * dt
        else if Qlt_bool p_y b_y then p_y + 1 * s * dt
        else p_y) ->
  (~ b_y - p_y == 0 -> Qabs (b_y - y') == Qabs (Qabs (b_y - p_y) - s * dt))
  /\ (b_y - p_y == 0 -> b_y - y' == 0)
  /\ (Qabs (b_y - y') <= Qabs (b_y - p_y) - s * dt
      \/ Qabs (b_y - y') <= s * dt).
Proof.
  intros Ht ->.
  destruct (step_towards (b_y - p_y) (s * dt) Ht) as (S1 & S2 & S3).
  destruct (Qlt_bool b_y p_y) eqn:L1; [|destruct (Qlt_bool p_y b_y) eqn:L2].
  - apply Qlt_bool_iff in L1.
    assert (D : b_y - (p_y + -1 * s * dt) == b_y - p_y + s * dt) by ring.
    rewrite D, S2 by lra.
    split; [reflexivity|]. split; [intro Z; lra | exact S3].
  - apply Qlt_bool_iff in L2.
    assert (D : b_y - (p_y + 1 * s * dt) == b_y - p_y - s * dt) by ring.
    rewrite D, S1 by lra.
    split; [reflexivity|]. split; [intro Z; lra | exact S3].
  - apply Qlt_bool_false_iff in L1. apply Qlt_bool_false_iff in L2.
    assert (Z : b_y - p_y == 0) by lra.
    split; [intro NZ; contradiction|]. split; [intros _; exact Z|].
    right. rewrite Z. exact Ht.
Qed.

Lemma frame_tracking_y f g :
  right_paddle_swtich (after_input f g) <> (-1)%Z ->
  vy (g_right_paddle_position (frame f g))
  = (if Qlt_bool (vy (g_ball_position (frame f g)))
                 (vy (g_right_paddle_position g))
     then vy (g_right_paddle_position g)
          + -1 * g_paddle_speed g * delta_time_at (sdl_ticks f) g
     else if Qlt_bool (vy (g_right_paddle_position g))
                      (vy (g_ball_position (frame f g)))
          then vy (g_right_paddle_position g)
               + 1 * g_paddle_speed g * delta_time_at (sdl_ticks f) g
          else vy (g_right_paddle_position g)).
Proof.
  intro AI. apply Z.eqb_neq in AI.
  rewrite frame_right_paddle_position, AI.
  destruct (Qlt_bool _ _); [|destruct (Qlt_bool _ _)]; reflexivity.
Qed.

(** X12. In a frame whose [update] runs with [right_paddle_swtich] other
    than -1, with a travel [g_paddle_speed * delta_time] that is not
    negative: when the ball's integrated y and the paddle's y differ by
    [d], they differ by [| |d| - travel |] afterwards, and by 0 when they
    were equal.  The paddle thus ends closer by a full travel or within
    one travel of the ball: it steps over the ball's height when nearer
    than one travel, there being no dead zone. *)
Theorem tracking_closes_in (f : FrameInput) (g : Globals) :
  let travel := g_paddle_speed g * delta_time_at (sdl_ticks f) g in
  let b_y := vy (g_ball_position (frame f g)) in
  let d := b_y - vy (g_right_paddle_position g) in
  let d' := b_y - vy (g_right_paddle_position (frame f g)) in
  right_paddle_swtich (after_input f g) <> (-1)%Z ->
  0 <= travel ->
  (~ d == 0 -> Qabs d' == Qabs (Qabs d - travel))
  /\ (d == 0 -> d' == 0)
  /\ (Qabs d' <= Qabs d - travel \/ Qabs d' <= travel).
Proof.
  cbv zeta. intros AI Ht.
  exact (tracking_step _ _ _ _ _ Ht (frame_tracking_y f g AI)).
Qed.

(** ** The serve key and the ball's direction *)

Lemma handle_event_ball_movement g e :
  g_ball_movement (handle_event g e)
  = if is_keydown SDLK_p e then set_vx (g_ball_movement g) (-1)
    else g_ball_movement g.
Proof.
  unfold is_keydown, handle_event.
  destruct (ev_type e =? SDL_KEYDOWN)%Z; cbn [andb];
    [|break_ifs; reflexivity].
  destruct (ev_sym e =? SDLK_p)%Z eqn:P.
  - apply Z.eqb_eq in P.
    assert (T : (ev_sym e =? SDLK_t)%Z = false)
      by (apply Z.eqb_neq; rewrite P; discriminate).
    rewrite T. break_ifs; reflexivity.
  - break_ifs; reflexivity.
Qed.

Lemma fold_handle_event_ball_movement evs : forall g,
  g_ball_movement (fold_left handle_event evs g)
  = if served evs then set_vx (g_ball_movement g) (-1) else g_ball_movement g.
Proof.
  unfold served.
  induction evs as [|e evs IH]; intro g; cbn [fold_left existsb].
  - reflexivity.
  - rewrite IH, handle_event_ball_movement.
    destruct (is_keydown SDLK_p e), (existsb (is_keydown SDLK_p) evs);
      reflexivity.
Qed.

Lemma after_input_ball_movement f g :
  g_ball_movement (after_input f g)
  = if served (events f) then set_vx (g_ball_movement g) (-1)
    else g_ball_movement g.
Proof.
  unfold after_input, process_input.
  rewrite (read_keys_preserves g_ball_movement) by (intros; reflexivity).
  apply fold_handle_event_ball_movement.
Qed.

Lemma after_collisions_movement_x f g :
  vx (g_ball_movement (after_collisions f g))
  = match frame_branch f g with
    | LeftPaddleBranch => 1
    | RightPaddleBranch => -1
    | NoBranch => vx (g_ball_movement (after_input f g))
    end.
Proof.
  unfold after_collisions. rewrite branch_taken_resolve.
  rewrite <- frame_branch_unfold.
  destruct (frame_branch f g).
  - rewrite left_paddle_branch_movement. cbn [vx]. reflexivity.
  - rewrite right_paddle_branch_movement. cbn [vx]. reflexivity.
  - rewrite at_tests_ball_movement. reflexivity.
Qed.

Lemma left_paddle_branch_movement_z g :
  vz (g_ball_movement (left_paddle_branch g)) = vz (g_ball_movement g).
Proof. unfold left_paddle_branch. break_ifs; reflexivity. Qed.

Lemma right_paddle_branch_movement_z g :
  vz (g_ball_movement (right_paddle_branch g)) = vz (g_ball_movement g).
Proof. unfold right_paddle_branch. break_ifs; reflexivity. Qed.

Lemma resolve_collisions_movement_z g :
  vz (g_ball_movement (resolve_collisions g)) = vz (g_ball_movement g).
Proof.
  rewrite branch_taken_resolve. destruct (branch_taken g).
  - apply left_paddle_branch_movement_z.
  - apply right_paddle_branch_movement_z.
  - reflexivity.
Qed.

Lemma after_collisions_movement_z f g :
  vz (g_ball_movement (after_collisions f g))
  = vz (g_ball_movement (after_input f g)).
Proof.
  unfold after_collisions. rewrite resolve_collisions_movement_z.
  rewrite at_tests_ball_movement. reflexivity.
Qed.

Lemma vertical_bounce_movement_z g :
  vz (g_ball_movement (vertical_bounce g)) = vz (g_ball_movement g).
Proof. unfold vertical_bounce. break_ifs; reflexivity. Qed.

Lemma frame_movement_x f g :
  vx (g_ball_movement (frame f g))
  = match frame_branch f g with
    | LeftPaddleBranch => 1
    | RightPaddleBranch => -1
    | NoBranch => if served (events f) then -1 else vx (g_ball_movement g)
    end.
Proof.
  rewrite frame_after_collisions. through g_ball_movement.
  rewrite vertical_bounce_movement_x, after_collisions_movement_x.
  destruct (frame_branch f g); try reflexivity.
  rewrite after_input_ball_movement. destruct (served (events f));
    reflexivity.
Qed.

Lemma frame_movement_z f g :
  vz (g_ball_movement (frame f g)) = vz (g_ball_movement g).
Proof.
  rewrite frame_after_collisions. through g_ball_movement.
  rewrite vertical_bounce_movement_z, after_collisions_movement_z.
  rewrite after_input_ball_movement. destruct (served (events f));
    reflexivity.
Qed.

(** X11. A frame with a key-down event of [p] integrates the ball with
    x-direction -1 whatever the direction was, a ball going right
    included: the ball ends [g_ball_speed * delta_time] to the left of
    where it was.  The y-direction is untouched by the key, and at the end
    of the frame the x-direction is -1 unless the left-paddle branch was
    taken. *)
Theorem serve_sends_ball_left (f : FrameInput) (g : Globals) :
  served (events f) = true ->
  g_ball_movement (after_input f g) = set_vx (g_ball_movement g) (-1)
  /\ vx (g_ball_position (frame f g))
     == vx (g_ball_position g)
        - g_ball_speed g * delta_time_at (sdl_ticks f) g
  /\ (frame_branch f g <> LeftPaddleBranch ->
      vx (g_ball_movement (frame f g)) = -1).
Proof.
  intro S.
  assert (M : g_ball_movement (after_input f g)
              = set_vx (g_ball_movement g) (-1))
    by (rewrite after_input_ball_movement, S; reflexivity).
  split; [exact M|]. split.
  - rewrite frame_ball_position, M. cbn [vadd vscale vx set_vx]. ring.
  - intro NL. rewrite frame_movement_x, S.
    destruct (frame_branch f g); [contradiction| |]; reflexivity.
Qed.

Lemma unit_times_minus_one (y : Q) :
  y == -1 \/ y == 0 \/ y == 1 ->
  y * -1 == -1 \/ y * -1 == 0 \/ y * -1 == 1.
Proof. intros [H | [H | H]]; rewrite H; [right; right | right; left | left];
  reflexivity. Qed.

Lemma unit_or_kept (m y : Q) :
  m = -1 \/ m = 0 \/ m = 1 ->
  y == -1 \/ y == 0 \/ y == 1 ->
  let r := if Qeq_bool m 0 then y else m in
  r == -1 \/ r == 0 \/ r == 1.
Proof.
  intros [-> | [-> | ->]] H; cbn; [left | exact H | right; right];
    reflexivity.
Qed.

Lemma frame_unit_directions f g :
  unit_directions g -> unit_directions (frame f g).
Proof.
  intros (X & Y & Z). unfold unit_directions.
  rewrite frame_movement_x, frame_movement_z, frame_movement_y.
  split; [|split; [|exact Z]].
  - destruct (frame_branch f g); [auto | auto |].
    destruct (served (events f)); auto.
  - assert (C : vy (g_ball_movement (after_collisions f g)) == -1
                \/ vy (g_ball_movement (after_collisions f g)) == 0
                \/ vy (g_ball_movement (after_collisions f g)) == 1).
    { rewrite after_collisions_movement_y.
      destruct (frame_branch f g); cbv zeta.
      - apply unit_or_kept; [apply after_input_unit | exact Y].
      - apply unit_or_kept; [apply after_input_right_unit | exact Y].
      - exact Y. }
    destruct (_ || _); [apply unit_times_minus_one|]; exact C.
Qed.

(** X10. In every run from the initial globals each of the ball's
    x- and y-direction is -1, 0 or 1 and its z-direction is 0: the serve
    key and the branches store -1 or 1, and line 304 only changes a sign.
    The ball's velocity is the direction times [g_ball_speed]. *)
Theorem ball_direction_components (fs : list FrameInput) :
  let m := g_ball_movement (main_loop fs initial_globals) in
  (vx m = -1 \/ vx m = 0 \/ vx m = 1)
  /\ (vy m == -1 \/ vy m == 0 \/ vy m == 1)
  /\ vz m = 0.
Proof.
  cbv zeta.
  apply (main_loop_invariant unit_directions).
  - intros f g _. apply frame_unit_directions.
  - split; [right; left; reflexivity|].
    split; [right; left; reflexivity | reflexivity].
Qed.

(** ** Before the serve *)

Lemma vertical_bounce_movement_inside g :
  -3.5 < vy (g_ball_position g) < 3.5 ->
  g_ball_movement (vertical_bounce g) = g_ball_movement g.
Proof.
  intros [L U]. unfold vertical_bounce.
  assert (E1 : Qle_bool 3.5 (vy (g_ball_position g)) = false).
  { destruct (Qle_bool 3.5 (vy (g_ball_position g))) eqn:E; [|reflexivity].
    apply Qle_bool_iff in E. lra. }
  assert (E2 : Qle_bool (vy (g_ball_position g)) (-3.5) = false).
  { destruct (Qle_bool (vy (g_ball_position g)) (-3.5)) eqn:E; [|reflexivity].
    apply Qle_bool_iff in E. lra. }
  rewrite E1, E2. reflexivity.
Qed.

Lemma handle_event_status g e :
  g_app_status (handle_event g e)
  = if is_quit e then TERMINATED else g_app_status g.
Proof.
  unfold is_quit, handle_event.
  destruct (_ || _); break_ifs; reflexivity.
Qed.

Lemma fold_handle_event_status evs : forall g,
  g_app_status (fold_left handle_event evs g)
  = if quit_requested evs then TERMINATED else g_app_status g.
Proof.
  unfold quit_requested.
  induction evs as [|e evs IH]; intro g; cbn [fold_left existsb].
  - reflexivity.
  - rewrite IH, handle_event_status.
    destruct (is_quit e), (existsb is_quit evs); reflexivity.
Qed.

Lemma frame_status f g :
  g_app_status (frame f g)
  = if Qle_bool 5 (vx (g_ball_position (frame f g)))
       || Qle_bool (vx (g_ball_position (frame f g))) (-5)
    then TERMINATED
    else if quit_requested (events f) then TERMINATED else g_app_status g.
Proof.
  rewrite <- after_collisions_ball_position.
  rewrite frame_after_collisions, termination_status.
  rewrite (vertical_bounce_preserves g_ball_position) by (intros; reflexivity).
  destruct (_ || _); [reflexivity|].
  through g_app_status. unfold after_collisions, at_tests.
  through g_app_status. unfold after_input, process_input.
  rewrite (read_keys_preserves g_app_status) by (intros; reflexivity).
  apply fold_handle_event_status.
Qed.

Lemma frame_branch_none f g :
  0 < paddle_ball_x_distance (at_tests f g) ->
  0 < right_paddle_ball_x_distance (at_tests f g) ->
  frame_branch f g = NoBranch.
Proof.
  intros L R. rewrite frame_branch_unfold. unfold branch_taken.
  assert (EL : left_collision (at_tests f g) = false).
  { destruct (left_collision (at_tests f g)) eqn:E; [|reflexivity].
    apply left_collision_iff in E. lra. }
  assert (ER : right_collision (at_tests f g) = false).
  { destruct (right_collision (at_tests f g)) eqn:E; [|reflexivity].
    apply right_collision_iff in E. lra. }
  rewrite EL, ER. reflexivity.
Qed.

(** The gaps around a ball at [x = 0] with the paddles in their columns. *)
Lemma gaps_at_centre (bx px rx gl gr : Q) :
  bx == 0 -> px == -4 -> rx == 4 ->
  gl == Qabs (bx - px) - 0.525 -> gr == Qabs (bx - rx) - 0.625 ->
  0 < gl /\ 0 < gr.
Proof.
  intros B P R -> ->.
  assert (E1 : Qabs (bx - px) == Qabs 4)
    by (apply Qabs_wd; rewrite B, P; reflexivity).
  assert (E2 : Qabs (bx - rx) == Qabs (-4))
    by (apply Qabs_wd; rewrite B, R; reflexivity).
  rewrite E1, E2. split; reflexivity.
Qed.

Lemma frame_at_rest f g :
  at_rest g -> in_columns g -> served (events f) = false ->
  at_rest (frame f g)
  /\ frame_branch f g = NoBranch
  /\ g_ball_speed (frame f g) = g_ball_speed g
  /\ (quit_requested (events f) = false ->
      g_app_status (frame f g) = g_app_status g).
Proof.
  intros (M & X & Y & Z) C S.
  assert (MI : g_ball_movement (after_input f g) = mkvec3 0 0 0)
    by (rewrite after_input_ball_movement, S; exact M).
  assert (P : vx (g_ball_position (frame f g)) == 0
              /\ vy (g_ball_position (frame f g)) == 0
              /\ vz (g_ball_position (frame f g)) == 0).
  { rewrite frame_ball_position, MI. cbn [vadd vscale vx vy vz].
    rewrite X, Y, Z. repeat split; ring. }
  destruct P as (PX & PY & PZ).
  destruct (frame_in_columns f g C) as (C1 & _ & C3 & _).
  destruct (frame_gaps f g) as (G1 & _ & G3 & _). cbv zeta in G1, G3.
  destruct (gaps_at_centre _ _ _ _ _ PX C1 C3 G1 G3) as [GL GR].
  assert (B : frame_branch f g = NoBranch)
    by (apply frame_branch_none; assumption).
  assert (MF : g_ball_movement (frame f g) = mkvec3 0 0 0).
  { rewrite frame_after_collisions. through g_ball_movement.
    rewrite vertical_bounce_movement_inside.
    - unfold after_collisions. rewrite branch_taken_resolve.
      rewrite <- frame_branch_unfold, B, at_tests_ball_movement. exact MI.
    - rewrite after_collisions_ball_position, PY. split; reflexivity. }
  split; [repeat split; assumption|]. split; [exact B|]. split.
  - rewrite frame_speed, B. reflexivity.
  - intro Q. rewrite frame_status, Q.
    assert (E1 : Qle_bool 5 (vx (g_ball_position (frame f g))) = false).
    { destruct (Qle_bool 5 _) eqn:E; [|reflexivity].
      apply Qle_bool_iff in E. rewrite PX in E. lra. }
    assert (E2 : Qle_bool (vx (g_ball_position (frame f g))) (-5) = false).
    { destruct (Qle_bool _ (-5)) eqn:E; [|reflexivity].
      apply Qle_bool_iff in E. rewrite PX in E. lra. }
    rewrite E1, E2. reflexivity.
Qed.

Lemma run_at_rest fs : forall g,
  at_rest g -> in_columns g -> unserved fs = true ->
  at_rest (main_loop fs g)
  /\ g_ball_speed (main_loop fs g) = g_ball_speed g
  /\ paddle_hits fs g = 0%nat
  /\ (no_quit fs = true -> g_app_status (main_loop fs g) = g_app_status g).
Proof.
  unfold unserved, no_quit.
  induction fs as [|f fs IH]; intros g R C U;
    cbn [main_loop paddle_hits forallb] in *.
  - repeat split; try reflexivity; apply R.
  - apply andb_true_iff in U. destruct U as [U1 U2].
    apply negb_true_iff in U1.
    destruct (frame_at_rest f g R C U1) as (R' & B & Sp & St).
    destruct (IH (frame f g) R' (frame_in_columns f g C) U2)
      as (I1 & I2 & I3 & I4).
    destruct (g_app_status g) eqn:E.
    + split; [exact I1|]. split; [rewrite I2; exact Sp|].
      split; [rewrite I3, B; reflexivity|].
      intro Q. apply andb_true_iff in Q. destruct Q as [Q1 Q2].
      apply negb_true_iff in Q1. rewrite (I4 Q2). apply St, Q1.
    + repeat split; try reflexivity; try apply R. intros _. exact E.
Qed.

(** X4. Until a frame holds a key-down event of [p] nothing happens to
    the ball: in a run from the initial globals whose frames hold none,
    the ball stays at the origin without a direction, no paddle branch is
    ever taken, the speed stays 3, and the run is still RUNNING unless a
    quit was requested. *)
Theorem ball_rests_until_served (fs : list FrameInput) :
  unserved fs = true ->
  let g := main_loop fs initial_globals in
  g_ball_movement g = mkvec3 0 0 0
  /\ (vx (g_ball_position g) == 0 /\ vy (g_ball_position g) == 0
      /\ vz (g_ball_position g) == 0)
  /\ paddle_hits fs initial_globals = 0%nat
  /\ g_ball_speed g = 3
  /\ (no_quit fs = true -> g_app_status g = RUNNING).
Proof.
  intro U. cbv zeta.
  assert (R : at_rest initial_globals) by (repeat split; reflexivity).
  assert (C : in_columns initial_globals) by (repeat split; reflexivity).
  destruct (run_at_rest fs initial_globals R C U)
    as ((M & P) & Sp & H & St).
  split; [exact M|]. split; [exact P|]. split; [exact H|].
  split; [exact Sp | exact St].
Qed.

(** ** The key-driven right paddle *)

(** X13. The right paddle under the keys ([right_paddle_swtich] -1 when
    [update] runs) obeys the same bounds as the left one: starting with
    [paddle_right_y_distance] equal to [3.15 - y], with [delta_time] and
    the paddle speed not negative, it ends within one frame's travel of
    [y], does not go up from [y >= 3.15] and does not go down from
    [y <= -3.15]. *)
Theorem right_paddle_stops_at_bounds (f : FrameInput) (g : Globals) :
  let y := vy (g_right_paddle_position g) in
  let y' := vy (g_right_paddle_position (frame f g)) in
  let travel := g_paddle_speed g * delta_time_at (sdl_ticks f) g in
  right_paddle_swtich (after_input f g) = (-1)%Z ->
  paddle_right_y_distance g == 3.15 - y ->
  0 <= delta_time_at (sdl_ticks f) g ->
  0 <= g_paddle_speed g ->
  y - travel <= y' <= y + travel
  /\ (3.15 <= y -> y' <= y)
  /\ (y <= -3.15 -> y <= y')
  /\ (y < 3.15 -> y' < 3.15 + travel)
  /\ (-3.15 < y -> -3.15 - travel < y').
Proof.
  cbv zeta. intros Sw D Hdt Hs.
  apply Z.eqb_eq in Sw.
  rewrite frame_right_paddle_position, Sw, after_input_right_paddle_movement.
  cbn [vadd vscale vy].
  set (m := if key_state f SDL_SCANCODE_DOWN then _ else _).
  assert (Hm : m = -1 \/ m = 0 \/ m = 1) by (subst m; break_ifs; auto).
  assert (Up : 3.15 <= vy (g_right_paddle_position g) -> m <= 0).
  { intro H.
    assert (B : Qle_bool (paddle_right_y_distance g) 0 = true)
      by (apply Qle_bool_iff; rewrite D; lra).
    subst m. rewrite B. break_ifs; lra. }
  assert (Down : vy (g_right_paddle_position g) <= -3.15 -> 0 <= m).
  { intro H.
    assert (B : Qle_bool 6.3 (paddle_right_y_distance g) = true)
      by (apply Qle_bool_iff; rewrite D; lra).
    subst m. rewrite B. break_ifs; lra. }
  destruct (travel_cases (vy (g_right_paddle_position g)) m (g_paddle_speed g)
              (delta_time_at (sdl_ticks f) g) Hs Hdt Hm) as (T & T1 & T2).
  cbv zeta in T, T1, T2. clearbody m.
  split; [exact T|]. split; [|split; [|split]]; intro H.
  - apply T1, Up, H.
  - apply T2, Down, H.
  - lra.
  - lra.
Qed.

(** ** The further properties on concrete frames *)

Lemma quit_request_ends_run_witness :
  g_app_status (frame (quit_frame 16) initial_globals) = TERMINATED
  /\ main_loop [quit_frame 16; serve_frame 32] initial_globals
     = frame (quit_frame 16) initial_globals.
Proof.
  destruct (quit_request_ends_run (quit_frame 16) [serve_frame 32]
              initial_globals eq_refl) as (T & _ & L).
  split; [exact T | exact (L eq_refl)].
Defined.

Lemma ball_rests_until_served_witness :
  g_ball_movement
    (main_loop [quiet_frame (only_key SDL_SCANCODE_S) 16; toggle_frame 32]
               initial_globals) = mkvec3 0 0 0
  /\ g_app_status
       (main_loop [quiet_frame (only_key SDL_SCANCODE_S) 16; toggle_frame 32]
                  initial_globals) = RUNNING.
Proof.
  pose proof (ball_rests_until_served
                [quiet_frame (only_key SDL_SCANCODE_S) 16; toggle_frame 32]
                eq_refl) as H.
  cbv zeta in H. destruct H as (M & _ & _ & _ & R).
  split; [exact M | exact (R eq_refl)].
Defined.

Lemma still_frame_witness :
  vy (g_paddle_position
        (frame (quiet_frame (only_key SDL_SCANCODE_S) 0) initial_globals))
  == vy (g_paddle_position initial_globals).
Proof.
  assert (D : delta_time_at
                (sdl_ticks (quiet_frame (only_key SDL_SCANCODE_S) 0))
                initial_globals == 0) by by_evaluation.
  destruct (still_frame (quiet_frame (only_key SDL_SCANCODE_S) 0)
              initial_globals D) as (_ & (_ & Y & _) & _).
  exact Y.
Defined.

(** W held at the upper bound. *)
Lemma paddle_stops_at_bounds_witness :
  vy (g_paddle_position
        (frame (quiet_frame (only_key SDL_SCANCODE_W) 16) paddles_at_bounds))
  <= vy (g_paddle_position paddles_at_bounds).
Proof.
  pose proof (paddle_stops_at_bounds
                (quiet_frame (only_key SDL_SCANCODE_W) 16) paddles_at_bounds)
    as H.
  cbv zeta in H.
  assert (D : paddle_y_distance paddles_at_bounds
              == 3.15 - vy (g_paddle_position paddles_at_bounds))
    by by_evaluation.
  assert (T : 0 <= delta_time_at
                     (sdl_ticks (quiet_frame (only_key SDL_SCANCODE_W) 16))
                     paddles_at_bounds) by by_evaluation.
  assert (S : 0 <= g_paddle_speed paddles_at_bounds) by by_evaluation.
  destruct (H D T S) as (_ & U & _). apply U. by_evaluation.
Defined.

(** DOWN held at the lower bound. *)
Lemma right_paddle_stops_at_bounds_witness :
  vy (g_right_paddle_position paddles_at_bounds)
  <= vy (g_right_paddle_position
           (frame (quiet_frame (only_key SDL_SCANCODE_DOWN) 16)
                  paddles_at_bounds)).
Proof.
  pose proof (right_paddle_stops_at_bounds
                (quiet_frame (only_key SDL_SCANCODE_DOWN) 16)
                paddles_at_bounds) as H.
  cbv zeta in H.
  assert (M : right_paddle_swtich
                (after_input (quiet_frame (only_key SDL_SCANCODE_DOWN) 16)
                             paddles_at_bounds) = (-1)%Z) by by_evaluation.
  assert (D : paddle_right_y_distance paddles_at_bounds
              == 3.15 - vy (g_right_paddle_position paddles_at_bounds))
    by by_evaluation.
  assert (T : 0 <= delta_time_at
                     (sdl_ticks (quiet_frame (only_key SDL_SCANCODE_DOWN) 16))
                     paddles_at_bounds) by by_evaluation.
  assert (S : 0 <= g_paddle_speed paddles_at_bounds) by by_evaluation.
  destruct (H M D T S) as (_ & _ & L & _). apply L. by_evaluation.
Defined.

(** A serve against a ball going right. *)
Lemma serve_sends_ball_left_witness :
  g_ball_movement (after_input (serve_frame 16) ball_at_right_paddle)
  = set_vx (g_ball_movement ball_at_right_paddle) (-1).
Proof.
  destruct (serve_sends_ball_left (serve_frame 16) ball_at_right_paddle
              eq_refl) as (M & _).
  exact M.
Defined.

(** Ball at [y = 2], tracking paddle at [y = 0], travel 0.048. *)
Lemma tracking_closes_in_witness :
  Qabs (vy (g_ball_position (frame (toggle_frame 16) ball_at_2))
        - vy (g_right_paddle_position (frame (toggle_frame 16) ball_at_2)))
  == 1.952.
Proof.
  pose proof (tracking_closes_in (toggle_frame 16) ball_at_2) as H.
  cbv zeta in H.
  assert (AI : right_paddle_swtich (after_input (toggle_frame 16) ball_at_2)
               <> (-1)%Z) by (vm_compute; discriminate).
  assert (T : 0 <= g_paddle_speed ball_at_2
                   * delta_time_at (sdl_ticks (toggle_frame 16)) ball_at_2)
    by by_evaluation.
  destruct (H AI T) as (E & _).
  rewrite E.
  - by_evaluation.
  - intro Z. vm_compute in Z. discriminate Z.
Defined.

(** * The ball's speed as the code rounds it *)









(** The two constants: [float_3_0] is 3, and [double_1_015] is within half
    a unit in the last place ([2^-53]) of 1.015, hence the nearest
    [double], and is what dividing 1015 by 1000 in [double] gives. *)
Example speed_constants :
  (exists q, SF2Q float_3_0 = Some q /\ q == 3)
  /\ (exists q,
        SF2Q double_1_015 = Some q
        /\ Qabs (q - 1.015) * inject_Z (2 ^ 53) <= 1)
  /\ SFdiv 53 1024 (S754_finite false 1015 0) (S754_finite false 1000 0)
     = double_1_015
  /\ valid_binary 24 128 float_3_0 = true
  /\ valid_binary 53 1024 double_1_015 = true.
Proof.
  split; [eexists; split; [reflexivity | reflexivity]|].
  split; [eexists; split; [reflexivity | vm_compute; discriminate]|].
  repeat split; vm_compute; reflexivity.
Qed.
